(** * TickTock: a shallow embedding of [ticktock.py]

    The script measures, for a number of trials, the staged response times of
    one request carrying a valid user name and of one carrying an invalid
    one, derives the ratio StartTransferTime / TotalTime of every request,
    logs the mean of each class and plots both series.

    Modelling choices.
    - Python floats are idealised as exact rationals ([Q]): [round] (that of
      Python 3, ties to even), [/] and [statistics.mean] are the exact
      operations, without the final rounding to a binary double.  Statements
      about numbers use [==] ([Qeq]).  The decimal context set on line 44
      plays no role: the script computes with floats only.
    - The network (pycurl) is a parameter: an oracle that tells, for the
      k-th call of [send_request], whether pycurl raises in it or which five
      raw timings the returned handle then reports.
    - The argument parser is modelled after argparse as CPython 3.11 has
      it, for command lines of ASCII characters.
    - The script's global state ([metrics]) is threaded explicitly; what the
      script does to the outside world (requests, log lines, plot calls) and
      the appends to [metrics] are recorded, in order, as a list of events.
    - Exceptions are values: a computation returns [Ok v] or [Raise e]; the
      script catches nothing, so a raised exception ends the run. *)

From Stdlib Require Import ZArith QArith Qround Qpower List String Bool Lia Lqa Ascii.
Import ListNotations.

Local Open Scope Q_scope.

(** ** Numbers *)

Module Num.

(** Nearest integer, ties to the even one: the rounding underneath
    Python's [round]. *)
Definition round_half_even (q : Q) : Z :=
  let f := Qfloor q in
  match Qcompare (q - inject_Z f) (1 # 2) with
  | Lt => f
  | Gt => (f + 1)%Z
  | Eq => if Z.even f then f else (f + 1)%Z
  end.

Definition pow10 (ndigits : Z) : Q := (10 # 1) ^ ndigits.

(** [round(x, ndigits)]: the multiple of 10^-ndigits nearest to [x];
    [ndigits] may be negative, as in Python. *)
Definition round (x : Q) (ndigits : Z) : Q :=
  inject_Z (round_half_even (x * pow10 ndigits)) / pow10 ndigits.

Definition is_zero (x : Q) : bool := (Qnum x =? 0)%Z.

End Num.

(** ** Exceptions and results *)

Inductive exn : Type :=
| UsageError          (* argparse: SystemExit(2) after the usage message *)
| HelpExit            (* argparse: SystemExit(0) after the help text *)
| NotModelled         (* no exception: a command line the parser model leaves out *)
| PycurlError         (* raised by pycurl inside send_request *)
| ZeroDivisionError   (* float division by zero *)
| StatisticsError     (* statistics.mean of no data *)
| ValueError.         (* min() / max() of an empty sequence *)

Inductive result (A : Type) : Type :=
| Ok (a : A)
| Raise (e : exn).
Arguments Ok {A} a.
Arguments Raise {A} e.

(** ** Data *)

(** What a finished curl handle answers to [getinfo]. *)
Record Curl : Type := mkCurl {
  NAMELOOKUP_TIME : Q;
  CONNECT_TIME : Q;
  APPCONNECT_TIME : Q;
  STARTTRANSFER_TIME : Q;
  TOTAL_TIME : Q
}.

(** The dict built by [extract_timings]; the keys are the source's. *)
Record TimingRecord : Type := mkTimingRecord {
  DNSLookup : Q;
  TCPConnectionTime : Q;
  AppConnectionTine : Q;
  StartTransferTime : Q;
  TotalTime : Q
}.

(** ticktock.py, [extract_timings]. *)
Definition extract_timings (request : Curl) (precision : Z) : TimingRecord :=
  {| DNSLookup := Num.round (NAMELOOKUP_TIME request) precision;
     TCPConnectionTime := Num.round (CONNECT_TIME request) precision;
     AppConnectionTine := Num.round (APPCONNECT_TIME request) precision;
     StartTransferTime := Num.round (STARTTRANSFER_TIME request) precision;
     TotalTime := Num.round (TOTAL_TIME request) precision |}.

(** The two request classes, the keys of [metrics]. *)
Inductive class : Type := valid | invalid.

(** The namespace returned by [parser.parse_args()]. *)
Record Namespace : Type := mkNamespace {
  target : option string;
  valid_post : option string;
  invalid_post : option string;
  attempts : Z;
  time_delay : Z;
  precision : Z
}.

(** ** Command line

    Lines 32 to 39 declare six options, none of them required; the three
    strings default to [None], the three integers to 50, 50 and 3, and
    argparse adds [-h] and [--help].  [parse_args] follows what argparse
    (CPython 3.11) does for such a parser: every argument is first classed
    as an option or a plain argument, abbreviations and [--name=value]
    included; the options are then consumed from left to right, each store
    option taking the plain argument that follows it or its explicit value;
    whatever is left over is an unrecognized argument.  Every error ends the
    program with a usage message ([UsageError]), the help option ends it
    with the help text ([HelpExit]).

    The model is of command lines of ASCII characters.  It answers
    [NotModelled] for the others, and where argparse would leave a list in
    the namespace (an explicit value [--], as in [--target=--]). *)

Module Argparse.

Inductive dest : Type :=
| d_target | d_valid_post | d_invalid_post | d_attempts | d_time_delay | d_precision.

Inductive action : Type :=
| help
| store (d : dest).

(** The option strings, in the order of their declaration. *)
Definition option_string_actions : list (string * action) :=
  [ ("-h", help); ("--help", help);
    ("--target", store d_target);
    ("--valid_post", store d_valid_post);
    ("--invalid_post", store d_invalid_post);
    ("--attempts", store d_attempts);
    ("--time_delay", store d_time_delay);
    ("--precision", store d_precision) ]%string.

Definition defaults : Namespace :=
  {| target := None; valid_post := None; invalid_post := None;
     attempts := 50; time_delay := 50; precision := 3 |}.

Definition is_ascii (c : ascii) : bool := (nat_of_ascii c <? 128)%nat.

Fixpoint ascii_only (s : string) : bool :=
  match s with
  | EmptyString => true
  | String c s' => is_ascii c && ascii_only s'
  end.

(** *** [int], the type of the three integer options *)

(** The ASCII white space that [int] strips: tab, line feed, vertical tab,
    form feed, carriage return and space. *)
Definition is_space (c : ascii) : bool :=
  let n := nat_of_ascii c in
  (((9 <=? n) && (n <=? 13)) || (n =? 32))%nat%bool.

Definition digit_of (c : ascii) : option Z :=
  let n := nat_of_ascii c in
  if ((48 <=? n)%nat && (n <=? 57)%nat)%bool
  then Some (Z.of_nat (n - 48)) else None.

Definition is_digit (c : ascii) : bool :=
  match digit_of c with
  | Some _ => true
  | None => false
  end.

Fixpoint lstrip (s : string) : string :=
  match s with
  | EmptyString => EmptyString
  | String c s' => if is_space c then lstrip s' else s
  end.

Fixpoint all_space (s : string) : bool :=
  match s with
  | EmptyString => true
  | String c s' => is_space c && all_space s'
  end.

(** Decimal digits, single underscores allowed between two digits, then
    white space to the end. *)
Fixpoint digits (s : string) (acc : Z) (after_digit : bool) : option Z :=
  match s with
  | EmptyString => if after_digit then Some acc else None
  | String c s' =>
      match digit_of c with
      | Some d => digits s' (10 * acc + d)%Z true
      | None =>
          if (c =? "_")%char then
            if after_digit then digits s' acc false else None
          else if is_space c then
            if after_digit && all_space s' then Some acc else None
          else None
      end
  end.

(** [int(s)] in base 10: [None] stands for [ValueError]. *)
Definition int (s : string) : option Z :=
  match lstrip s with
  | EmptyString => None
  | String c s' =>
      if (c =? "-")%char then option_map Z.opp (digits s' 0 false)
      else if (c =? "+")%char then digits s' 0 false
      else digits (String c s') 0 false
  end.

(** *** Classing the arguments *)

Fixpoint find (table : list (string * action)) (s : string) : option action :=
  match table with
  | [] => None
  | (os, a) :: table' => if (os =? s)%string then Some a else find table' s
  end.

(** [s.split('=', 1)], when [s] has an [=]. *)
Fixpoint split_eq (s : string) : option (string * string) :=
  match s with
  | EmptyString => None
  | String c s' =>
      if (c =? "=")%char then Some (EmptyString, s')
      else match split_eq s' with
           | Some (l, r) => Some (String c l, r)
           | None => None
           end
  end.

Fixpoint contains_space (s : string) : bool :=
  match s with
  | EmptyString => false
  | String c s' => (c =? " ")%char || contains_space s'
  end.

(** One or more digits up to the end or to a last line feed: [\d+$]. *)
Fixpoint digits_to_end (s : string) (seen : bool) : bool :=
  match s with
  | EmptyString => seen
  | String c s' =>
      if is_digit c then digits_to_end s' true
      else seen && (nat_of_ascii c =? 10)%nat
                && match s' with
                   | EmptyString => true
                   | String _ _ => false
                   end
  end.

(** [\d*\.\d+$] *)
Fixpoint digits_dot_digits (s : string) : bool :=
  match s with
  | EmptyString => false
  | String c s' =>
      if is_digit c then digits_dot_digits s'
      else (c =? ".")%char && digits_to_end s' false
  end.

(** The parser's [_negative_number_matcher]: [^-\d+$|^-\d*\.\d+$]. *)
Definition negative_number (s : string) : bool :=
  match s with
  | EmptyString => false
  | String c s' => (c =? "-")%char && (digits_to_end s' false || digits_dot_digits s')
  end.

(** [s.startswith(p)] *)
Fixpoint startswith (s p : string) {struct p} : bool :=
  match p with
  | EmptyString => true
  | String c p' =>
      match s with
      | EmptyString => false
      | String c' s' => (c' =? c)%char && startswith s' p'
      end
  end.

Definition second_is_dash (s : string) : bool :=
  match s with
  | String _ (String c _) => (c =? "-")%char
  | _ => false
  end.

(** [s[:2]] and [s[2:]] *)
Definition first_two (s : string) : string := substring 0 2 s.
Definition after_two (s : string) : string := substring 2 (String.length s - 2) s.

(** The option strings an argument may stand for, each with the explicit
    value the argument would carry: after two dashes all option strings that
    start with what precedes the [=]; after one dash the option string made
    of its first two characters, the rest being the explicit value, and the
    option strings that start with the whole argument. *)
Definition _get_option_tuples (option_string : string)
  : list (action * string * option string) :=
  if second_is_dash option_string then
    let option_prefix :=
      match split_eq option_string with
      | Some (l, _) => l
      | None => option_string
      end in
    let explicit_arg := option_map snd (split_eq option_string) in
    flat_map (fun entry =>
                if startswith (fst entry) option_prefix
                then [ (snd entry, fst entry, explicit_arg) ] else [])
             option_string_actions
  else
    flat_map (fun entry =>
                if (fst entry =? first_two option_string)%string
                then [ (snd entry, fst entry, Some (after_two option_string)) ]
                else if startswith (fst entry) option_string
                then [ (snd entry, fst entry, None) ]
                else [])
             option_string_actions.

(** The classes of the argument pattern: a plain argument, the [--] that
    ends the options, an option (with no action when no option string
    matches). *)
Inductive item : Type :=
| A
| Dash
| O (a : option action) (option_string : string) (explicit_arg : option string).

(** An ambiguous abbreviation is an error at once. *)
Definition _parse_optional (arg_string : string) : result item :=
  match arg_string with
  | EmptyString => Ok A
  | String c rest =>
      if negb (c =? "-")%char then Ok A
      else
        match find option_string_actions arg_string with
        | Some a => Ok (O (Some a) arg_string None)
        | None =>
            match rest with
            | EmptyString => Ok A
            | String _ _ =>
                let exact :=
                  match split_eq arg_string with
                  | Some (l, r) =>
                      match find option_string_actions l with
                      | Some a => Some (O (Some a) l (Some r))
                      | None => None
                      end
                  | None => None
                  end in
                match exact with
                | Some it => Ok it
                | None =>
                    match _get_option_tuples arg_string with
                    | _ :: _ :: _ => Raise UsageError
                    | [ (a, os, e) ] => Ok (O (Some a) os e)
                    | [] =>
                        if negative_number arg_string then Ok A
                        else if contains_space arg_string then Ok A
                        else Ok (O None arg_string None)
                    end
                end
            end
        end
  end.

(** The pattern of the whole command line: everything after a [--] is a
    plain argument. *)
Fixpoint pattern (arg_strings : list string) : result (list item) :=
  match arg_strings with
  | [] => Ok []
  | s :: rest =>
      if (s =? "--")%string then Ok (Dash :: map (fun _ => A) rest)
      else
        match _parse_optional s with
        | Raise e => Raise e
        | Ok it =>
            match pattern rest with
            | Ok its => Ok (it :: its)
            | Raise e => Raise e
            end
        end
  end.

(** *** Consuming the options *)

(** The store action: the value converted by the option's type. *)
Definition store_value (d : dest) (v : string) (ns : Namespace) : result Namespace :=
  let store_int (f : Z -> Namespace) :=
    match int v with
    | Some z => Ok (f z)
    | None => Raise UsageError       (* invalid int value *)
    end in
  match d with
  | d_target =>
      Ok (mkNamespace (Some v) (valid_post ns) (invalid_post ns)
            (attempts ns) (time_delay ns) (precision ns))
  | d_valid_post =>
      Ok (mkNamespace (target ns) (Some v) (invalid_post ns)
            (attempts ns) (time_delay ns) (precision ns))
  | d_invalid_post =>
      Ok (mkNamespace (target ns) (valid_post ns) (Some v)
            (attempts ns) (time_delay ns) (precision ns))
  | d_attempts =>
      store_int (fun z => mkNamespace (target ns) (valid_post ns) (invalid_post ns)
                            z (time_delay ns) (precision ns))
  | d_time_delay =>
      store_int (fun z => mkNamespace (target ns) (valid_post ns) (invalid_post ns)
                            (attempts ns) z (precision ns))
  | d_precision =>
      store_int (fun z => mkNamespace (target ns) (valid_post ns) (invalid_post ns)
                            (attempts ns) (time_delay ns) z)
  end.

Fixpoint all_h (s : string) : bool :=
  match s with
  | EmptyString => true
  | String c s' => (c =? "h")%char && all_h s'
  end.

Definition dest_eqb (a b : dest) : bool :=
  match a, b with
  | d_target, d_target | d_valid_post, d_valid_post
  | d_invalid_post, d_invalid_post | d_attempts, d_attempts
  | d_time_delay, d_time_delay | d_precision, d_precision => true
  | _, _ => false
  end.

Definition without (d : dest) (odd : list dest) : list dest :=
  filter (fun d' => negb (dest_eqb d d')) odd.

(** The arguments with their classes, from left to right.  [extras] tells
    whether an unrecognized argument has been met (an error, but only at the
    end); [odd] lists the destinations that hold a list, not a value.
    - A plain argument that no option takes, a [--] and an unknown option
      are unrecognized.
    - The help option ends the program; with an explicit value it is an
      error, unless it is [-h] followed by more [h]s.
    - A store option takes its explicit value, or else the next argument,
      which must be a plain one. *)
Fixpoint consume (items : list (string * item)) (ns : Namespace)
         (extras : bool) (odd : list dest) : result Namespace :=
  match items with
  | [] =>
      if extras then Raise UsageError        (* unrecognized arguments *)
      else match odd with
           | [] => Ok ns
           | _ :: _ => Raise NotModelled
           end
  | (_, A) :: rest => consume rest ns true odd
  | (_, Dash) :: rest => consume rest ns true odd
  | (_, O None _ _) :: rest => consume rest ns true odd
  | (_, O (Some help) _ None) :: _ => Raise HelpExit
  | (_, O (Some help) os (Some e)) :: _ =>
      if (os =? "-h")%string && negb (e =? "")%string && all_h e
      then Raise HelpExit
      else Raise UsageError                  (* ignored explicit argument *)
  | (_, O (Some (store d)) _ (Some e)) :: rest =>
      if (e =? "--")%string then consume rest ns extras (d :: odd)
      else match store_value d e ns with
           | Ok ns' => consume rest ns' extras (without d odd)
           | Raise x => Raise x
           end
  | (_, O (Some (store d)) _ None) :: rest =>
      match rest with
      | (v, A) :: rest' =>
          match store_value d v ns with
          | Ok ns' => consume rest' ns' extras (without d odd)
          | Raise x => Raise x
          end
      | _ => Raise UsageError                (* expected one argument *)
      end
  end.

Definition parse_args (argv : list string) : result Namespace :=
  if negb (forallb ascii_only argv) then Raise NotModelled
  else
    match pattern argv with
    | Raise e => Raise e
    | Ok items => consume (combine argv items) defaults false []
    end.

End Argparse.

(** ** What the script does, in order *)

Inductive event : Type :=
| LogPassedArguments (args : Namespace)          (* line 41 *)
| SendRequest (url data : option string)         (* lines 97 and 101 *)
| CurlClose                                      (* lines 99 and 103 *)
| LogProcessed (i : nat) (n : Z)                 (* line 105 *)
| MetricsAppend (c : class) (r : TimingRecord)   (* lines 107 and 108 *)
| LogAverage (c : class) (m : Q)                 (* lines 114 and 115 *)
| PltTitle (s : string)
| PltYlabel (s : string)
| PltXlabel (s : string)
| PltMinorticksOn
| PltPlot (x : list Z) (y : list Q) (fmt : string)
| PltAxis (xmin xmax : Z) (ymin ymax : Q)
| PltShow.

(** The module-level [metrics] dict and the number of requests sent so far
    (the index under which the network answers the next one). *)
Record state : Type := mkState {
  metrics_valid : list TimingRecord;
  metrics_invalid : list TimingRecord;
  sent : nat
}.

Definition initial : state :=
  {| metrics_valid := []; metrics_invalid := []; sent := 0 |}.

(** ** State, exceptions and the event log *)

Definition M (A : Type) : Type := state -> result A * state * list event.

Definition ret {A} (a : A) : M A := fun s => (Ok a, s, []).

Definition bind {A B} (m : M A) (k : A -> M B) : M B :=
  fun s =>
    match m s with
    | (Ok a, s1, t1) =>
        match k a s1 with
        | (r, s2, t2) => (r, s2, t1 ++ t2)
        end
    | (Raise e, s1, t1) => (Raise e, s1, t1)
    end.

Definition lift {A} (r : result A) : M A := fun s => (r, s, []).

Definition emit (e : event) : M unit := fun s => (Ok tt, s, [e]).

Definition get : M state := fun s => (Ok s, s, []).

Notation "x <- m ;; k" := (bind m (fun x => k))
  (at level 61, m at next level, right associativity).
Notation "m ;; k" := (bind m (fun _ => k))
  (at level 61, right associativity).

(** ** Pure helpers: the list comprehension, [statistics.mean], [min], [max] *)

Definition truediv (a b : Q) : result Q :=
  if Num.is_zero b then Raise ZeroDivisionError else Ok (a / b).

(** [[metric['StartTransferTime'] / metric['TotalTime'] for metric in ms]] *)
Fixpoint y_axis (ms : list TimingRecord) : result (list Q) :=
  match ms with
  | [] => Ok []
  | metric :: ms' =>
      match truediv (StartTransferTime metric) (TotalTime metric) with
      | Raise e => Raise e
      | Ok y =>
          match y_axis ms' with
          | Ok ys => Ok (y :: ys)
          | Raise e => Raise e
          end
      end
  end.

Module Statistics.

Definition sum (data : list Q) : Q := fold_left Qplus data 0.

(** [statistics.mean]: [StatisticsError] on no data, else total / n. *)
Definition mean (data : list Q) : result Q :=
  match data with
  | [] => Raise StatisticsError
  | _ => Ok (sum data / inject_Z (Z.of_nat (List.length data)))
  end.

End Statistics.

Module Py.

Definition min (data : list Q) : result Q :=
  match data with
  | [] => Raise ValueError
  | x :: xs => Ok (fold_left (fun m y => if Qlt_le_dec y m then y else m) xs x)
  end.

Definition max (data : list Q) : result Q :=
  match data with
  | [] => Raise ValueError
  | x :: xs => Ok (fold_left (fun m y => if Qlt_le_dec m y then y else m) xs x)
  end.

(** [range(a, b)] *)
Definition range (a b : Z) : list Z :=
  map (fun k => (a + Z.of_nat k)%Z) (seq 0 (Z.to_nat (b - a))).

End Py.

(** ** The script *)

(** What a completed run has computed (lines 111 to 115). *)
Record report : Type := mkReport {
  y_axis_valid : list Q;
  y_axis_invalid : list Q;
  mean_valid : Q;
  mean_invalid : Q
}.

Section Script.

(** The answer to the k-th request: [None] when pycurl raises. *)
Variable network : nat -> option string -> option string -> option Curl.

(** ticktock.py, [send_request]. *)
Definition send_request (url data : option string) : M Curl :=
  fun s =>
    let s' := mkState (metrics_valid s) (metrics_invalid s) (S (sent s)) in
    match network (sent s) url data with
    | Some curl => (Ok curl, s', [SendRequest url data])
    | None => (Raise PycurlError, s', [SendRequest url data])
    end.

Definition metrics_append (c : class) (r : TimingRecord) : M unit :=
  fun s =>
    let s' :=
      match c with
      | valid => mkState (metrics_valid s ++ [r]) (metrics_invalid s) (sent s)
      | invalid => mkState (metrics_valid s) (metrics_invalid s ++ [r]) (sent s)
      end in
    (Ok tt, s', [MetricsAppend c r]).

(** The body of the sampling loop, lines 96 to 108. *)
Definition trial (args : Namespace) (i : nat) : M unit :=
  valid_handle <- send_request (target args) (valid_post args) ;;
  let valid_results := extract_timings valid_handle (precision args) in
  emit CurlClose ;;
  invalid_handle <- send_request (target args) (invalid_post args) ;;
  let invalid_results := extract_timings invalid_handle (precision args) in
  emit CurlClose ;;
  emit (LogProcessed i (attempts args)) ;;
  metrics_append valid valid_results ;;
  metrics_append invalid invalid_results.

(** [for i in range(n)], started at [i]. *)
Fixpoint for_range (i n : nat) (body : nat -> M unit) : M unit :=
  match n with
  | O => ret tt
  | S n' => body i ;; for_range (S i) n' body
  end.

Definition sampling_loop (args : Namespace) : M unit :=
  for_range 0 (Z.to_nat (attempts args)) (trial args).

(** Lines 111 to 135. *)
Definition reduce_and_plot (args : Namespace) : M report :=
  s <- get ;;
  y_valid <- lift (y_axis (metrics_valid s)) ;;
  y_invalid <- lift (y_axis (metrics_invalid s)) ;;
  m_valid <- lift (Statistics.mean y_valid) ;;
  emit (LogAverage valid m_valid) ;;
  m_invalid <- lift (Statistics.mean y_invalid) ;;
  emit (LogAverage invalid m_invalid) ;;
  let x_axis := Py.range 1 (attempts args + 1) in
  emit (PltTitle "Response Times for Valid / Invalid User Names") ;;
  emit (PltYlabel "Response Time (ms)") ;;
  emit (PltXlabel "Request Number (#)") ;;
  emit PltMinorticksOn ;;
  emit (PltPlot x_axis y_valid "b") ;;
  emit (PltPlot x_axis y_invalid "r") ;;
  lo <- lift (Py.min y_valid) ;;
  hi <- lift (Py.max y_valid) ;;
  emit (PltAxis 1 (attempts args) (lo - lo * (5 # 100)) (hi + hi * (5 # 100))) ;;
  emit PltShow ;;
  ret (mkReport y_valid y_invalid m_valid m_invalid).

(** The script from line 41 on, for parsed arguments. *)
Definition script (args : Namespace) : M report :=
  emit (LogPassedArguments args) ;;
  sampling_loop args ;;
  reduce_and_plot args.

(** The whole program, from the command line. *)
Definition main (argv : list string) : result report * state * list event :=
  match Argparse.parse_args argv with
  | Ok args => script args initial
  | Raise e => (Raise e, initial, [])
  end.

End Script.

(** Projections of a run. *)
Definition outcome {A} (r : result A * state * list event) : result A := fst (fst r).
Definition final {A} (r : result A * state * list event) : state := snd (fst r).
Definition events {A} (r : result A * state * list event) : list event := snd r.

(** ** Vocabulary of the statements *)

Definition payload (args : Namespace) (c : class) : option string :=
  match c with
  | valid => valid_post args
  | invalid => invalid_post args
  end.

Definition series (c : class) (s : state) : list TimingRecord :=
  match c with
  | valid => metrics_valid s
  | invalid => metrics_invalid s
  end.

Section Replies.

Variable network : nat -> option string -> option string -> option Curl.
Variable args : Namespace.

(** The network's answer if the k-th request of the run carries the
    payload of class [c]. *)
Definition reply (c : class) (k : nat) : option Curl :=
  network k (target args) (payload args c).

(** The record [extract_timings] makes of that answer. *)
Definition timings (c : class) (k : nat) : option TimingRecord :=
  option_map (fun h => extract_timings h (precision args)) (reply c k).

(** No request of the first [n] trials fails, the requests being numbered
    from [p]: trial [j] performs number [p + 2j] (valid) and [p + 2j + 1]
    (invalid). *)
Definition all_answered (p n : nat) : Prop :=
  forall j, (j < n)%nat ->
    reply valid (p + 2 * j) <> None /\ reply invalid (p + 2 * j + 1) <> None.

(** Some request of the first [n] trials fails. *)
Definition some_fails (p n : nat) : Prop :=
  exists j, (j < n)%nat /\
    (reply valid (p + 2 * j) = None \/ reply invalid (p + 2 * j + 1) = None).

End Replies.

(** The events of one completed trial. *)
Definition trial_events (args : Namespace) (i : nat) (rv ri : TimingRecord)
  : list event :=
  [ SendRequest (target args) (valid_post args); CurlClose;
    SendRequest (target args) (invalid_post args); CurlClose;
    LogProcessed i (attempts args);
    MetricsAppend valid rv; MetricsAppend invalid ri ].

(** The events of the completed trials that produced the series [vs] and
    [ws], the first of them being trial [i]. *)
Fixpoint loop_events (args : Namespace) (i : nat) (vs ws : list TimingRecord)
  : list event :=
  match vs, ws with
  | rv :: vs', ri :: ws' =>
      trial_events args i rv ri ++ loop_events args (S i) vs' ws'
  | _, _ => []
  end.

(** How the sampling loop of [n] trials ends after [m] completed trials, and
    with which last events. *)
Inductive loop_end (network : nat -> option string -> option string -> option Curl)
  (args : Namespace) (p n m : nat) : result unit -> list event -> Prop :=
| end_completed :
    m = n ->
    loop_end network args p n m (Ok tt) []
| end_valid_failed :
    (m < n)%nat ->
    reply network args valid (p + 2 * m) = None ->
    loop_end network args p n m (Raise PycurlError)
      [ SendRequest (target args) (valid_post args) ]
| end_invalid_failed :
    (m < n)%nat ->
    reply network args valid (p + 2 * m) <> None ->
    reply network args invalid (p + 2 * m + 1) = None ->
    loop_end network args p n m (Raise PycurlError)
      [ SendRequest (target args) (valid_post args); CurlClose;
        SendRequest (target args) (invalid_post args) ].

(** Events by which results leave the script: the logged means and the
    calls into the plotting library. *)
Definition is_report (e : event) : bool :=
  match e with
  | LogAverage _ _ | PltTitle _ | PltYlabel _ | PltXlabel _ | PltMinorticksOn
  | PltPlot _ _ _ | PltAxis _ _ _ _ | PltShow => true
  | _ => false
  end.

(** The reading of the sampling protocol in which a record is appended as
    soon as its request has completed: every request but the first has an
    append to [metrics] between it and the request before. *)
Fixpoint appended_before_next_request (appended : bool) (tr : list event) : bool :=
  match tr with
  | [] => true
  | SendRequest _ _ :: tr' => appended && appended_before_next_request false tr'
  | MetricsAppend _ _ :: tr' => appended_before_next_request true tr'
  | _ :: tr' => appended_before_next_request appended tr'
  end.

(** The option string of a destination, and its shortest abbreviation that
    argparse accepts: the shortest prefix that no other option string
    shares. *)
Definition option_string_of (d : Argparse.dest) : string :=
  match d with
  | Argparse.d_target => "--target"
  | Argparse.d_valid_post => "--valid_post"
  | Argparse.d_invalid_post => "--invalid_post"
  | Argparse.d_attempts => "--attempts"
  | Argparse.d_time_delay => "--time_delay"
  | Argparse.d_precision => "--precision"
  end.

Definition shortest_abbreviation (d : Argparse.dest) : string :=
  match d with
  | Argparse.d_target => "--ta"
  | Argparse.d_valid_post => "--v"
  | Argparse.d_invalid_post => "--i"
  | Argparse.d_attempts => "--a"
  | Argparse.d_time_delay => "--ti"
  | Argparse.d_precision => "--p"
  end.

(** No argument of the command line names the option of [d], in full or
    abbreviated. *)
Definition not_given (d : Argparse.dest) (argv : list string) : Prop :=
  Forall (fun s => Argparse.startswith s (shortest_abbreviation d) = false) argv.

(** The value a namespace holds for a destination. *)
Inductive value : Type :=
| Str (s : option string)
| Int (z : Z).

Definition value_of (d : Argparse.dest) (ns : Namespace) : value :=
  match d with
  | Argparse.d_target => Str (target ns)
  | Argparse.d_valid_post => Str (valid_post ns)
  | Argparse.d_invalid_post => Str (invalid_post ns)
  | Argparse.d_attempts => Int (attempts ns)
  | Argparse.d_time_delay => Int (time_delay ns)
  | Argparse.d_precision => Int (precision ns)
  end.

(** The argument class [it] is the option of [d]. *)
Definition selects (d : Argparse.dest) (it : Argparse.item) : bool :=
  match it with
  | Argparse.O (Some (Argparse.store d')) _ _ => Argparse.dest_eqb d d'
  | _ => false
  end.

(** The prefixes of a string, the shortest first. *)
Fixpoint prefixes (s : string) : list string :=
  match s with
  | EmptyString => [ EmptyString ]
  | String c s' => EmptyString :: map (String c) (prefixes s')
  end.

(** Two namespaces that differ at most in [time_delay]. *)
Definition same_but_time_delay (a b : Namespace) : Prop :=
  target a = target b /\ valid_post a = valid_post b /\
  invalid_post a = invalid_post b /\ attempts a = attempts b /\
  precision a = precision b.

(** The signal of one record. *)
Definition ratio (m : TimingRecord) : Q := StartTransferTime m / TotalTime m.

(** The arithmetic mean as a quotient of the right-to-left sum. *)
Definition arithmetic_mean (xs : list Q) : Q :=
  fold_right Qplus 0 xs / inject_Z (Z.of_nat (List.length xs)).

(** The events of lines 114 to 135, for a report and the extreme valid
    signals. *)
Definition report_events (args : Namespace) (rep : report) (lo hi : Q) : list event :=
  [ LogAverage valid (mean_valid rep); LogAverage invalid (mean_invalid rep);
    PltTitle "Response Times for Valid / Invalid User Names";
    PltYlabel "Response Time (ms)"; PltXlabel "Request Number (#)";
    PltMinorticksOn;
    PltPlot (Py.range 1 (attempts args + 1)) (y_axis_valid rep) "b";
    PltPlot (Py.range 1 (attempts args + 1)) (y_axis_invalid rep) "r";
    PltAxis 1 (attempts args) (lo - lo * (5 # 100)) (hi + hi * (5 # 100));
    PltShow ].

(** The requests and the progress lines among the events. *)
Definition is_request (e : event) : bool :=
  match e with
  | SendRequest _ _ => true
  | _ => false
  end.

Definition is_progress (e : event) : bool :=
  match e with
  | LogProcessed _ _ => true
  | _ => false
  end.

(** ** Concrete networks and arguments for the examples *)

(** Every connection is refused. *)
Definition refusing : nat -> option string -> option string -> option Curl :=
  fun _ _ _ => None.

(** Fixed timings: requests number 0, 2, 4, ... (the valid ones) see the
    first byte after 80 of 100 units of time, the others after 20 of 100. *)
Definition steady : nat -> option string -> option string -> option Curl :=
  fun k _ _ =>
    if Nat.even k
    then Some (mkCurl (1 # 1) (2 # 1) (3 # 1) (80 # 1) (100 # 1))
    else Some (mkCurl (1 # 1) (2 # 1) (3 # 1) (20 # 1) (100 # 1)).

(** Every request is answered at once: all timings are 0. *)
Definition instant : nat -> option string -> option string -> option Curl :=
  fun _ _ _ => Some (mkCurl 0 0 0 0 0).

(** The third trial's valid request is refused, all others are as in
    [steady]. *)
Definition refused_at_third : nat -> option string -> option string -> option Curl :=
  fun k u d => if (k =? 4)%nat then None else steady k u d.

(** Fixed timings the other way round: the valid requests see the first
    byte after 20 of 100 units of time, the invalid ones after 80 of 100. *)
Definition lagging : nat -> option string -> option string -> option Curl :=
  fun k _ _ =>
    if Nat.even k
    then Some (mkCurl (1 # 1) (2 # 1) (3 # 1) (20 # 1) (100 # 1))
    else Some (mkCurl (1 # 1) (2 # 1) (3 # 1) (80 # 1) (100 # 1)).

(** The scenario of the end-to-end test, in pycurl's unit, the second: every
    total is 0.1 s; requests number 0, 2, 4, ... (the valid ones) see the
    first byte after 0.08 s, the others after 0.02 s. *)
Definition scenario : nat -> option string -> option string -> option Curl :=
  fun k _ _ =>
    if Nat.even k
    then Some (mkCurl (1 # 1000) (2 # 1000) (3 # 1000) (8 # 100) (1 # 10))
    else Some (mkCurl (1 # 1000) (2 # 1000) (3 # 1000) (2 # 100) (1 # 10)).

Definition example_args (n d p : Z) : Namespace :=
  {| target := Some "http://localhost/login"%string;
     valid_post := Some "user=admin"%string;
     invalid_post := Some "user=nobody"%string;
     attempts := n; time_delay := d; precision := p |}.

(** ** Rounding is monotone *)

Ltac compare_facts :=
  repeat match goal with
    | H : Qcompare _ _ = Eq |- _ => apply Qeq_alt in H
    | H : Qcompare _ _ = Lt |- _ => apply Qlt_alt in H
    | H : Qcompare _ _ = Gt |- _ => apply Qgt_alt in H
    end.

Section Rounding.

Lemma round_half_even_range (q : Q) :
  (Qfloor q <= Num.round_half_even q <= Qfloor q + 1)%Z.
Proof.
  unfold Num.round_half_even.
  destruct (Qcompare (q - inject_Z (Qfloor q)) (1 # 2)); try lia.
  destruct (Z.even (Qfloor q)); lia.
Qed.

Lemma round_half_even_mono (x y : Q) :
  x <= y -> (Num.round_half_even x <= Num.round_half_even y)%Z.
Proof.
  intros Hxy.
  pose proof (Qfloor_resp_le x y Hxy) as Hf.
  destruct (Z.eq_dec (Qfloor x) (Qfloor y)) as [E | N].
  - assert (Hfrac : x - inject_Z (Qfloor x) <= y - inject_Z (Qfloor y)).
    { rewrite E. apply Qplus_le_l. exact Hxy. }
    unfold Num.round_half_even.
    destruct (Qcompare (x - inject_Z (Qfloor x)) (1 # 2)) eqn:Cx;
      destruct (Qcompare (y - inject_Z (Qfloor y)) (1 # 2)) eqn:Cy;
      rewrite <- E; try (destruct (Z.even (Qfloor x))); try lia; exfalso.
    all: compare_facts; lra.
  - pose proof (round_half_even_range x). pose proof (round_half_even_range y).
    lia.
Qed.

Lemma round_half_even_Z (z : Z) : Num.round_half_even (inject_Z z) = z.
Proof.
  unfold Num.round_half_even. rewrite Qfloor_Z.
  replace (Qcompare (inject_Z z - inject_Z z) (1 # 2)) with Lt; [ reflexivity | ].
  symmetry. apply Qlt_alt.
  setoid_replace (inject_Z z - inject_Z z) with 0 by ring. reflexivity.
Qed.

Lemma pow10_pos (n : Z) : 0 < Num.pow10 n.
Proof. apply Qpower_0_lt. reflexivity. Qed.

Lemma round_mono (x y : Q) (ndigits : Z) :
  x <= y -> Num.round x ndigits <= Num.round y ndigits.
Proof.
  intros Hxy. unfold Num.round.
  pose proof (pow10_pos ndigits) as Hp.
  apply Qmult_le_compat_r.
  - rewrite <- Zle_Qle. apply round_half_even_mono.
    apply Qmult_le_compat_r; [ exact Hxy | apply Qlt_le_weak; exact Hp ].
  - apply Qlt_le_weak. apply Qinv_lt_0_compat. exact Hp.
Qed.

Lemma round_0 (ndigits : Z) : Num.round 0 ndigits == 0.
Proof.
  unfold Num.round.
  assert (E : 0 * Num.pow10 ndigits == inject_Z 0) by ring.
  assert (R : Num.round_half_even (0 * Num.pow10 ndigits) = 0%Z).
  { unfold Num.round_half_even.
    assert (F : Qfloor (0 * Num.pow10 ndigits) = 0%Z).
    { rewrite <- (Qfloor_Z 0). apply Qfloor_comp. exact E. }
    rewrite F.
    replace (Qcompare (0 * Num.pow10 ndigits - inject_Z 0) (1 # 2)) with Lt; [ reflexivity | ].
    symmetry. apply Qlt_alt. rewrite E. reflexivity. }
  rewrite R. unfold Qdiv. ring.
Qed.

Lemma round_nonneg (x : Q) (ndigits : Z) : 0 <= x -> 0 <= Num.round x ndigits.
Proof.
  intros Hx. rewrite <- (round_0 ndigits). apply round_mono. exact Hx.
Qed.

Lemma round_half_even_comp (x y : Q) :
  x == y -> Num.round_half_even x = Num.round_half_even y.
Proof.
  intros H. unfold Num.round_half_even.
  rewrite (Qfloor_comp x y H).
  assert (E : Qcompare (x - inject_Z (Qfloor y)) (1 # 2)
              = Qcompare (y - inject_Z (Qfloor y)) (1 # 2)).
  { apply Qcompare_comp; [ rewrite H; reflexivity | reflexivity ]. }
  rewrite E. reflexivity.
Qed.

Lemma round_comp (x y : Q) (ndigits : Z) :
  x == y -> Num.round x ndigits == Num.round y ndigits.
Proof.
  intros H. unfold Num.round.
  rewrite (round_half_even_comp (x * Num.pow10 ndigits) (y * Num.pow10 ndigits)).
  - reflexivity.
  - rewrite H. reflexivity.
Qed.

Lemma pow10_nonneg (n : Z) : (0 <= n)%Z -> Num.pow10 n == inject_Z (10 ^ n).
Proof.
  intros Hn. unfold Num.pow10. symmetry. apply (Zpower_Qpower 10 n Hn).
Qed.

Lemma pow10_nonzero (n : Z) : ~ Num.pow10 n == 0.
Proof.
  pose proof (pow10_pos n) as H. intros E. rewrite E in H. apply (Qlt_irrefl 0 H).
Qed.

Lemma round_decimal (z places ndigits : Z) :
  (0 <= places <= ndigits)%Z ->
  Num.round (inject_Z z / Num.pow10 places) ndigits == inject_Z z / Num.pow10 places.
Proof.
  intros Hn. unfold Num.round.
  pose proof (pow10_nonzero ndigits) as HN.
  pose proof (pow10_nonzero places) as HK.
  assert (HP : Num.pow10 ndigits
               == Num.pow10 places * inject_Z (10 ^ (ndigits - places))).
  { rewrite <- pow10_nonneg by lia. unfold Num.pow10.
    replace ndigits with (places + (ndigits - places))%Z at 1 by lia.
    rewrite Qpower_plus by discriminate. reflexivity. }
  assert (E : inject_Z z / Num.pow10 places * Num.pow10 ndigits
              == inject_Z (z * 10 ^ (ndigits - places))).
  { rewrite inject_Z_mult, HP. field. exact HK. }
  rewrite (round_half_even_comp _ _ E), round_half_even_Z.
  rewrite inject_Z_mult.
  assert (HQ : ~ inject_Z (10 ^ (ndigits - places)) == 0).
  { intros Z0. rewrite Z0 in HP. apply HN. rewrite HP. ring. }
  rewrite HP. field. split; assumption.
Qed.

Lemma round_hundredths (x : Q) (z ndigits : Z) :
  (2 <= ndigits)%Z -> x == inject_Z z / Num.pow10 2 -> Num.round x ndigits == x.
Proof.
  intros Hn Hx. rewrite (round_comp _ _ ndigits Hx), Hx.
  apply round_decimal. lia.
Qed.

End Rounding.

(** ** One trial *)

Section Trial.

Variable network : nat -> option string -> option string -> option Curl.
Variable args : Namespace.

Lemma trial_completes (i : nat) (s : state) (hv hi : Curl) :
  reply network args valid (sent s) = Some hv ->
  reply network args invalid (S (sent s)) = Some hi ->
  trial network args i s =
    (Ok tt,
     mkState (metrics_valid s ++ [extract_timings hv (precision args)])
             (metrics_invalid s ++ [extract_timings hi (precision args)])
             (S (S (sent s))),
     trial_events args i (extract_timings hv (precision args))
                         (extract_timings hi (precision args))).
Proof.
  unfold reply, payload. intros Hv Hi.
  unfold trial, bind, send_request, emit, metrics_append. simpl.
  rewrite Hv. simpl. rewrite Hi. reflexivity.
Qed.

Lemma trial_valid_fails (i : nat) (s : state) :
  reply network args valid (sent s) = None ->
  trial network args i s =
    (Raise PycurlError,
     mkState (metrics_valid s) (metrics_invalid s) (S (sent s)),
     [ SendRequest (target args) (valid_post args) ]).
Proof.
  unfold reply, payload. intros Hv.
  unfold trial, bind, send_request. rewrite Hv. reflexivity.
Qed.

Lemma trial_invalid_fails (i : nat) (s : state) (hv : Curl) :
  reply network args valid (sent s) = Some hv ->
  reply network args invalid (S (sent s)) = None ->
  trial network args i s =
    (Raise PycurlError,
     mkState (metrics_valid s) (metrics_invalid s) (S (S (sent s))),
     [ SendRequest (target args) (valid_post args); CurlClose;
       SendRequest (target args) (invalid_post args) ]).
Proof.
  unfold reply, payload. intros Hv Hi.
  unfold trial, bind, send_request, emit. simpl.
  rewrite Hv. simpl. rewrite Hi. reflexivity.
Qed.

Lemma for_range_S (i n : nat) (body : nat -> M unit) (s : state) :
  for_range i (S n) body s =
    match body i s with
    | (Ok _, s1, t1) =>
        match for_range (S i) n body s1 with
        | (r, s2, t2) => (r, s2, t1 ++ t2)
        end
    | (Raise e, s1, t1) => (Raise e, s1, t1)
    end.
Proof. reflexivity. Qed.

(** The sampling loop, whatever the network does: it completes some
    number of trials, whose records are exactly what it has appended to
    the two series, and then either is through or dies on a request. *)
Lemma for_range_trial (n : nat) : forall (i : nat) (s : state),
  exists vs ws tail,
    List.length vs = List.length ws /\
    metrics_valid (final (for_range i n (trial network args) s))
      = metrics_valid s ++ vs /\
    metrics_invalid (final (for_range i n (trial network args) s))
      = metrics_invalid s ++ ws /\
    events (for_range i n (trial network args) s)
      = loop_events args i vs ws ++ tail /\
    loop_end network args (sent s) n (List.length vs)
      (outcome (for_range i n (trial network args) s)) tail /\
    (forall j, (j < List.length vs)%nat ->
       nth_error vs j = timings network args valid (sent s + 2 * j) /\
       nth_error ws j = timings network args invalid (sent s + 2 * j + 1)).
Proof.
  induction n as [ | n IH ]; intros i s.
  - exists [], [], []. simpl. rewrite !app_nil_r.
    repeat split; try (constructor; reflexivity); simpl in *; lia.
  - rewrite for_range_S.
    destruct (reply network args valid (sent s)) as [ hv | ] eqn:Hv.
    2:{ rewrite (trial_valid_fails i s Hv).
        exists [], [], [ SendRequest (target args) (valid_post args) ].
        simpl. rewrite !app_nil_r.
        repeat split; simpl in *; try lia.
        apply end_valid_failed; [ simpl; lia | ].
        simpl. rewrite Nat.add_0_r. exact Hv. }
    destruct (reply network args invalid (S (sent s))) as [ hi | ] eqn:Hi.
    2:{ rewrite (trial_invalid_fails i s hv Hv Hi).
        exists [], [],
          [ SendRequest (target args) (valid_post args); CurlClose;
            SendRequest (target args) (invalid_post args) ].
        simpl. rewrite !app_nil_r.
        repeat split; simpl in *; try lia.
        apply end_invalid_failed; [ simpl; lia | | ]; simpl.
        - rewrite Nat.add_0_r, Hv. discriminate.
        - rewrite Nat.add_0_r, Nat.add_1_r. exact Hi. }
    rewrite (trial_completes i s hv hi Hv Hi).
    set (rv := extract_timings hv (precision args)).
    set (ri := extract_timings hi (precision args)).
    set (s1 := mkState (metrics_valid s ++ [rv]) (metrics_invalid s ++ [ri])
                 (S (S (sent s)))).
    destruct (IH (S i) s1) as (vs & ws & tail & Hlen & Hmv & Hmi & Hev & Hend & Hrec).
    destruct (for_range (S i) n (trial network args) s1) as [[r s2] t2].
    unfold final, outcome, events in *. simpl in *.
    exists (rv :: vs), (ri :: ws), tail. simpl.
    repeat split.
    + congruence.
    + rewrite Hmv. rewrite <- app_assoc. reflexivity.
    + rewrite Hmi. rewrite <- app_assoc. reflexivity.
    + rewrite Hev. reflexivity.
    + inversion Hend; subst.
      * apply end_completed. reflexivity.
      * apply end_valid_failed; [ lia | ].
        replace (sent s + 2 * S (List.length vs))%nat
          with (S (S (sent s)) + 2 * List.length vs)%nat by lia.
        assumption.
      * apply end_invalid_failed; [ lia | | ].
        -- replace (sent s + 2 * S (List.length vs))%nat
             with (S (S (sent s)) + 2 * List.length vs)%nat by lia.
           assumption.
        -- replace (sent s + 2 * S (List.length vs) + 1)%nat
             with (S (S (sent s)) + 2 * List.length vs + 1)%nat by lia.
           assumption.
    + destruct j as [ | j ]; simpl.
      * rewrite Nat.add_0_r. unfold timings. rewrite Hv. reflexivity.
      * replace (sent s + S (j + S (j + 0)))%nat
          with (S (S (sent s)) + 2 * j)%nat by lia.
        apply Hrec. lia.
    + destruct j as [ | j ]; simpl.
      * rewrite Nat.add_0_r, Nat.add_1_r. unfold timings. rewrite Hi. reflexivity.
      * replace (sent s + S (j + S (j + 0)) + 1)%nat
          with (S (S (sent s)) + 2 * j + 1)%nat by lia.
        apply Hrec. lia.
Qed.

End Trial.

(** ** The reducer *)

Section Reducer.

Lemma is_zero_spec (x : Q) : Num.is_zero x = true <-> x == 0.
Proof.
  unfold Num.is_zero, Qeq. simpl. rewrite Z.eqb_eq. lia.
Qed.

Lemma truediv_nonzero (a b : Q) : ~ b == 0 -> truediv a b = Ok (a / b).
Proof.
  intros Hb. unfold truediv.
  destruct (Num.is_zero b) eqn:E; [ | reflexivity ].
  apply is_zero_spec in E. contradiction.
Qed.

Lemma truediv_zero (a b : Q) : b == 0 -> truediv a b = Raise ZeroDivisionError.
Proof.
  intros Hb. unfold truediv. apply is_zero_spec in Hb. rewrite Hb. reflexivity.
Qed.

Lemma y_axis_nonzero (ms : list TimingRecord) :
  Forall (fun m => ~ TotalTime m == 0) ms -> y_axis ms = Ok (map ratio ms).
Proof.
  induction 1 as [ | m ms Hm _ IH ]; [ reflexivity | ].
  simpl. rewrite (truediv_nonzero _ _ Hm), IH. reflexivity.
Qed.

Lemma y_axis_zero (ms : list TimingRecord) :
  Exists (fun m => TotalTime m == 0) ms -> y_axis ms = Raise ZeroDivisionError.
Proof.
  induction 1 as [ m ms Hm | m ms _ IH ]; simpl.
  - rewrite (truediv_zero _ _ Hm). reflexivity.
  - rewrite IH. unfold truediv. destruct (Num.is_zero (TotalTime m)); reflexivity.
Qed.

Lemma zero_or_not (ms : list TimingRecord) :
  Forall (fun m => ~ TotalTime m == 0) ms \/ Exists (fun m => TotalTime m == 0) ms.
Proof.
  induction ms as [ | m ms [ IH | IH ] ].
  - left. constructor.
  - destruct (Qeq_dec (TotalTime m) 0) as [ E | N ].
    + right. left. exact E.
    + left. constructor; assumption.
  - right. right. exact IH.
Qed.

Lemma y_axis_Ok (ms : list TimingRecord) (ys : list Q) :
  y_axis ms = Ok ys ->
  ys = map ratio ms /\ Forall (fun m => ~ TotalTime m == 0) ms.
Proof.
  intros H. destruct (zero_or_not ms) as [ Hnz | Hz ].
  - rewrite (y_axis_nonzero ms Hnz) in H. inversion H. split; [ reflexivity | exact Hnz ].
  - rewrite (y_axis_zero ms Hz) in H. discriminate.
Qed.

Lemma fold_left_Qplus (xs : list Q) : forall a,
  fold_left Qplus xs a == a + fold_right Qplus 0 xs.
Proof.
  induction xs as [ | x xs IH ]; intros a; simpl.
  - ring.
  - rewrite IH. ring.
Qed.

Lemma mean_nonempty (xs : list Q) :
  xs <> [] ->
  exists mu, Statistics.mean xs = Ok mu /\ mu == arithmetic_mean xs.
Proof.
  intros Hne. destruct xs as [ | x xs ]; [ contradiction | ].
  eexists. split; [ reflexivity | ].
  unfold arithmetic_mean, Statistics.sum.
  rewrite fold_left_Qplus. apply Qdiv_comp; [ ring | reflexivity ].
Qed.

Lemma sum_const (c : Q) (xs : list Q) :
  Forall (fun x => x == c) xs ->
  fold_right Qplus 0 xs == inject_Z (Z.of_nat (List.length xs)) * c.
Proof.
  induction 1 as [ | x xs Hx _ IH ].
  - simpl. ring.
  - cbn [fold_right List.length]. rewrite IH, Hx, Nat2Z.inj_succ.
    unfold Z.succ. rewrite inject_Z_plus. ring.
Qed.

Lemma arithmetic_mean_const (c : Q) (xs : list Q) :
  xs <> [] -> Forall (fun x => x == c) xs -> arithmetic_mean xs == c.
Proof.
  intros Hne Hall. unfold arithmetic_mean. rewrite (sum_const c xs Hall).
  assert (Hn : ~ inject_Z (Z.of_nat (List.length xs)) == 0).
  { destruct xs; [ contradiction | ].
    unfold Qeq. simpl. lia. }
  field. exact Hn.
Qed.

(** The four ways through lines 111 to 135. *)
Lemma reduce_valid_raises (args : Namespace) (s : state) (e : exn) :
  y_axis (metrics_valid s) = Raise e ->
  reduce_and_plot args s = (Raise e, s, []).
Proof.
  intros H. unfold reduce_and_plot, bind, get, lift. rewrite H. reflexivity.
Qed.

Lemma reduce_invalid_raises (args : Namespace) (s : state) (yv : list Q) (e : exn) :
  y_axis (metrics_valid s) = Ok yv ->
  y_axis (metrics_invalid s) = Raise e ->
  reduce_and_plot args s = (Raise e, s, []).
Proof.
  intros Hv Hi. unfold reduce_and_plot, bind, get, lift. rewrite Hv, Hi. reflexivity.
Qed.

Lemma reduce_completes (args : Namespace) (s : state) (yv yi : list Q) (a b : Q) :
  y_axis (metrics_valid s) = Ok yv ->
  y_axis (metrics_invalid s) = Ok yi ->
  Statistics.mean yv = Ok a ->
  Statistics.mean yi = Ok b ->
  exists lo hi,
    reduce_and_plot args s =
      (Ok (mkReport yv yi a b), s,
       [ LogAverage valid a; LogAverage invalid b;
         PltTitle "Response Times for Valid / Invalid User Names";
         PltYlabel "Response Time (ms)"; PltXlabel "Request Number (#)";
         PltMinorticksOn;
         PltPlot (Py.range 1 (attempts args + 1)) yv "b";
         PltPlot (Py.range 1 (attempts args + 1)) yi "r";
         PltAxis 1 (attempts args) lo hi; PltShow ]).
Proof.
  intros Hv Hi Ha Hb.
  destruct yv as [ | y yv ]; [ discriminate | ].
  unfold reduce_and_plot, bind, get, lift, emit, ret.
  rewrite Hv, Hi, Ha, Hb. simpl. eexists. eexists. reflexivity.
Qed.

Lemma script_unfold network (args : Namespace) (s : state) :
  script network args s =
    match sampling_loop network args s with
    | (Ok _, s1, t1) =>
        match reduce_and_plot args s1 with
        | (r, s2, t2) => (r, s2, LogPassedArguments args :: t1 ++ t2)
        end
    | (Raise e, s1, t1) => (Raise e, s1, LogPassedArguments args :: t1)
    end.
Proof.
  unfold script, bind, emit. simpl.
  destruct (sampling_loop network args s) as [[[ [] | e ] s1] t1]; [ | reflexivity ].
  destruct (reduce_and_plot args s1) as [[r s2] t2]. reflexivity.
Qed.

Lemma loop_events_quiet (args : Namespace) (vs : list TimingRecord) :
  forall i ws, Forall (fun e => is_report e = false) (loop_events args i vs ws).
Proof.
  induction vs as [ | rv vs IH ]; intros i ws; [ constructor | ].
  destruct ws as [ | ri ws ]; [ constructor | ].
  simpl. repeat (constructor; [ reflexivity | ]). apply IH.
Qed.

Lemma loop_end_quiet network args p n m r tail :
  loop_end network args p n m r tail ->
  Forall (fun e => is_report e = false) tail.
Proof.
  intros H. inversion H; repeat (constructor; try reflexivity).
Qed.

End Reducer.

(** ** Properties of the timing records and of the reducer *)

(** C8.  A record made from raw stage timings that are non-negative and
    non-decreasing in the order name lookup, connect, application connect,
    start of transfer, total has five non-negative fields in the same
    non-decreasing order, whatever the rounding precision. *)
Theorem extract_timings_ordered (request : Curl) (precision : Z) :
  0 <= NAMELOOKUP_TIME request ->
  NAMELOOKUP_TIME request <= CONNECT_TIME request ->
  CONNECT_TIME request <= APPCONNECT_TIME request ->
  APPCONNECT_TIME request <= STARTTRANSFER_TIME request ->
  STARTTRANSFER_TIME request <= TOTAL_TIME request ->
  let r := extract_timings request precision in
  (0 <= DNSLookup r /\ 0 <= TCPConnectionTime r /\ 0 <= AppConnectionTine r /\
   0 <= StartTransferTime r /\ 0 <= TotalTime r) /\
  DNSLookup r <= TCPConnectionTime r /\
  TCPConnectionTime r <= AppConnectionTine r /\
  AppConnectionTine r <= StartTransferTime r /\
  StartTransferTime r <= TotalTime r.
Proof.
  intros H0 H1 H2 H3 H4. simpl.
  assert (G1 := round_mono _ _ precision H1).
  assert (G2 := round_mono _ _ precision H2).
  assert (G3 := round_mono _ _ precision H3).
  assert (G4 := round_mono _ _ precision H4).
  assert (G0 := round_nonneg _ precision H0).
  repeat split; try assumption.
  - eapply Qle_trans; eauto.
  - eapply Qle_trans; [ | exact G2 ]. eapply Qle_trans; eauto.
  - eapply Qle_trans; [ | exact G3 ]. eapply Qle_trans; [ | exact G2 ].
    eapply Qle_trans; eauto.
  - eapply Qle_trans; [ | exact G4 ]. eapply Qle_trans; [ | exact G3 ].
    eapply Qle_trans; [ | exact G2 ]. eapply Qle_trans; eauto.
Qed.

Lemma extract_timings_ordered_witness :
  let r := extract_timings (mkCurl (1 # 1000) (2 # 1000) (2 # 1000) (80 # 1000) (1 # 10)) 3 in
  (0 <= DNSLookup r /\ 0 <= TCPConnectionTime r /\ 0 <= AppConnectionTine r /\
   0 <= StartTransferTime r /\ 0 <= TotalTime r) /\
  DNSLookup r <= TCPConnectionTime r /\
  TCPConnectionTime r <= AppConnectionTine r /\
  AppConnectionTine r <= StartTransferTime r /\
  StartTransferTime r <= TotalTime r.
Proof.
  apply (extract_timings_ordered
           (mkCurl (1 # 1000) (2 # 1000) (2 # 1000) (80 # 1000) (1 # 10)) 3);
    unfold Qle; simpl; lia.
Defined.

(** C3.  For a series whose records all have a nonzero total, the derived
    signal series exists, has the length and the order of the series, and
    its element at index i is record i's StartTransferTime divided by its
    TotalTime; and the summary of a non-empty signal series is its
    arithmetic mean. *)
Theorem derive_and_summarize (ms : list TimingRecord) :
  Forall (fun m => ~ TotalTime m == 0) ms ->
  exists ys,
    y_axis ms = Ok ys /\
    List.length ys = List.length ms /\
    (forall i m, nth_error ms i = Some m ->
       nth_error ys i = Some (StartTransferTime m / TotalTime m)) /\
    (forall xs, xs <> [] ->
       exists mu, Statistics.mean xs = Ok mu /\ mu == arithmetic_mean xs).
Proof.
  intros Hnz. exists (map ratio ms). repeat split.
  - apply y_axis_nonzero. exact Hnz.
  - apply length_map.
  - intros i m Hi. rewrite nth_error_map, Hi. reflexivity.
  - apply mean_nonempty.
Qed.

Lemma derive_and_summarize_witness :
  exists ys,
    y_axis [ mkTimingRecord 1 2 3 80 100; mkTimingRecord 1 2 3 20 100 ] = Ok ys /\
    List.length ys = 2%nat /\
    (forall i m,
       nth_error [ mkTimingRecord 1 2 3 80 100; mkTimingRecord 1 2 3 20 100 ] i = Some m ->
       nth_error ys i = Some (StartTransferTime m / TotalTime m)) /\
    (forall xs, xs <> [] ->
       exists mu, Statistics.mean xs = Ok mu /\ mu == arithmetic_mean xs).
Proof.
  apply (derive_and_summarize
           [ mkTimingRecord 1 2 3 80 100; mkTimingRecord 1 2 3 20 100 ]).
  repeat constructor; unfold Qeq; simpl; lia.
Defined.

(** C2, as the code has it.  The division of the derive step is not
    guarded: if, after a sampling loop that completed, some record of a
    series has a total of zero, deriving that series raises
    ZeroDivisionError, nothing catches it, and the script ends with that
    exception before any mean is logged and before anything is plotted. *)
Theorem zero_total_ends_the_run network (args : Namespace) (c : class) :
  outcome (sampling_loop network args initial) = Ok tt ->
  Exists (fun m => TotalTime m == 0)
    (series c (final (sampling_loop network args initial))) ->
  y_axis (series c (final (sampling_loop network args initial)))
    = Raise ZeroDivisionError /\
  outcome (script network args initial) = Raise ZeroDivisionError /\
  Forall (fun e => is_report e = false) (events (script network args initial)).
Proof.
  intros Hok Hz.
  pose proof (y_axis_zero _ Hz) as Hy.
  split; [ exact Hy | ].
  rewrite script_unfold.
  destruct (for_range_trial network args (Z.to_nat (attempts args)) 0 initial)
    as (vs & ws & tail & _ & _ & _ & Hev & Hend & _).
  fold (sampling_loop network args) in Hev, Hend.
  destruct (sampling_loop network args initial) as [[r s1] t1].
  unfold outcome, final, events in *. simpl in *. subst r.
  inversion Hend; subst. rewrite app_nil_r.
  assert (Hred : reduce_and_plot args s1 = (Raise ZeroDivisionError, s1, [])).
  { destruct c; simpl in Hy.
    - apply reduce_valid_raises. exact Hy.
    - destruct (y_axis (metrics_valid s1)) as [ yv | e ] eqn:Hv.
      + eapply reduce_invalid_raises; eauto.
      + destruct (zero_or_not (metrics_valid s1)) as [ Hnz | Hz' ].
        * rewrite (y_axis_nonzero _ Hnz) in Hv. discriminate.
        * rewrite (y_axis_zero _ Hz') in Hv. inversion Hv; subst.
          apply reduce_valid_raises. apply y_axis_zero. exact Hz'. }
  rewrite Hred. simpl. split; [ reflexivity | ].
  constructor; [ reflexivity | ]. rewrite app_nil_r. apply loop_events_quiet.
Qed.

Lemma zero_total_ends_the_run_witness :
  y_axis (series valid (final (sampling_loop instant (example_args 1 50 3) initial)))
    = Raise ZeroDivisionError /\
  outcome (script instant (example_args 1 50 3) initial) = Raise ZeroDivisionError /\
  Forall (fun e => is_report e = false)
    (events (script instant (example_args 1 50 3) initial)).
Proof.
  apply (zero_total_ends_the_run instant (example_args 1 50 3) valid).
  - reflexivity.
  - vm_compute. constructor. reflexivity.
Defined.

(** C2, counterexample.  A record whose total is zero makes the derive step
    raise ZeroDivisionError, and a run in which every request is answered at
    once ends with that exception. *)
Lemma zero_total_is_not_guarded :
  y_axis [ mkTimingRecord 0 0 0 0 0 ] = Raise ZeroDivisionError /\
  outcome (script instant (example_args 1 50 3) initial) = Raise ZeroDivisionError.
Proof. split; reflexivity. Qed.

(** ** Properties of the sampling loop *)

Section Sampling.

Variable network : nat -> option string -> option string -> option Curl.
Variable args : Namespace.

(** A loop that comes to its end has had all its requests answered. *)
Lemma completed_all_answered (p m : nat) (vs ws : list TimingRecord) :
  (forall j, (j < List.length vs)%nat ->
     nth_error vs j = timings network args valid (p + 2 * j) /\
     nth_error ws j = timings network args invalid (p + 2 * j + 1)) ->
  List.length vs = List.length ws ->
  List.length vs = m ->
  all_answered network args p m.
Proof.
  intros Hrec Hlen Hm j Hj. subst m.
  destruct (Hrec j Hj) as [ Hv Hi ].
  assert (Sv : nth_error vs j <> None) by (apply nth_error_Some; exact Hj).
  assert (Si : nth_error ws j <> None) by (apply nth_error_Some; lia).
  rewrite Hv in Sv. rewrite Hi in Si. unfold timings in *.
  split; intros E; [ rewrite E in Sv | rewrite E in Si ]; contradiction.
Qed.

Lemma failed_not_all_answered (p n m : nat) (tail : list event) :
  loop_end network args p n m (Raise PycurlError) tail ->
  ~ all_answered network args p n.
Proof.
  intros Hend Hall. inversion Hend; subst.
  - destruct (Hall m) as [ Hv _ ]; [ assumption | ]. contradiction.
  - destruct (Hall m) as [ _ Hi ]; [ assumption | ]. contradiction.
Qed.

Lemma some_fails_not_all_answered (p n : nat) :
  some_fails network args p n -> ~ all_answered network args p n.
Proof.
  intros (j & Hj & [ Hv | Hi ]) Hall; destruct (Hall j Hj); contradiction.
Qed.

End Sampling.

(** C1.  When no request of a run of N trials fails, the sampling loop
    comes to its end with two series of exactly N records each; the records
    at index i are the ones extracted from the two requests of trial i (the
    requests number 2i and 2i+1 of the run); and a signal series derived
    from either has one scalar per record, at the record's index. *)
Theorem sampling_loop_series network (args : Namespace) :
  (0 <= attempts args)%Z ->
  all_answered network args 0 (Z.to_nat (attempts args)) ->
  let run := sampling_loop network args initial in
  outcome run = Ok tt /\
  Z.of_nat (List.length (metrics_valid (final run))) = attempts args /\
  Z.of_nat (List.length (metrics_invalid (final run))) = attempts args /\
  (forall i, (i < Z.to_nat (attempts args))%nat ->
     exists hv hi,
       reply network args valid (2 * i) = Some hv /\
       reply network args invalid (2 * i + 1) = Some hi /\
       nth_error (metrics_valid (final run)) i
         = Some (extract_timings hv (precision args)) /\
       nth_error (metrics_invalid (final run)) i
         = Some (extract_timings hi (precision args))) /\
  (forall c,
     (Forall (fun m => ~ TotalTime m == 0) (series c (final run)) ->
      exists ys, y_axis (series c (final run)) = Ok ys) /\
     (forall ys,
        y_axis (series c (final run)) = Ok ys ->
        List.length ys = List.length (series c (final run)) /\
        forall i m, nth_error (series c (final run)) i = Some m ->
          nth_error ys i = Some (StartTransferTime m / TotalTime m))).
Proof.
  intros Hnonneg Hall run. subst run.
  destruct (for_range_trial network args (Z.to_nat (attempts args)) 0 initial)
    as (vs & ws & tail & Hlen & Hmv & Hmi & _ & Hend & Hrec).
  fold (sampling_loop network args) in Hmv, Hmi, Hend.
  simpl in Hmv, Hmi, Hend, Hrec.
  rewrite Hmv, Hmi.
  assert (Hdone : outcome (sampling_loop network args initial) = Ok tt
                  /\ List.length vs = Z.to_nat (attempts args)).
  { inversion Hend as [ Hm Ho | Hm Hv Ho | Hm Hv Hi Ho ].
    - split; [ reflexivity | exact Hm ].
    - exfalso. eapply failed_not_all_answered; [ | exact Hall ].
      rewrite Ho. exact Hend.
    - exfalso. eapply failed_not_all_answered; [ | exact Hall ].
      rewrite Ho. exact Hend. }
  destruct Hdone as [ Hok Hn ].
  split; [ exact Hok | ].
  split; [ rewrite Hn; apply Z2Nat.id; exact Hnonneg | ].
  split; [ rewrite <- Hlen, Hn; apply Z2Nat.id; exact Hnonneg | ].
  split; [ | intros c; split ].
  - intros i Hi. rewrite <- Hn in Hi.
    destruct (Hrec i Hi) as [ Hv Hw ].
    destruct (Hall i) as [ Av Aw ]; [ lia | ]. simpl in Av, Aw.
    unfold timings in Hv, Hw.
    destruct (reply network args valid (i + (i + 0))) as [ hv | ] eqn:Ev;
      [ | contradiction ].
    destruct (reply network args invalid (i + (i + 0) + 1)) as [ hi | ] eqn:Ew;
      [ | contradiction ].
    exists hv, hi. simpl. rewrite Ev, Ew. repeat split; assumption.
  - intros Hnz. eexists. apply y_axis_nonzero. exact Hnz.
  - intros ys Hys. apply y_axis_Ok in Hys. destruct Hys as [ -> _ ]. split.
    + apply length_map.
    + intros i m Hi. rewrite nth_error_map, Hi. reflexivity.
Qed.

Lemma steady_all_answered (args : Namespace) (p n : nat) :
  all_answered steady args p n.
Proof.
  intros j _. unfold reply, steady.
  split; match goal with |- context [ Nat.even ?k ] => destruct (Nat.even k) end;
    discriminate.
Qed.

Lemma sampling_loop_series_witness :
  let args := example_args 5 50 3 in
  let run := sampling_loop steady args initial in
  outcome run = Ok tt /\
  Z.of_nat (List.length (metrics_valid (final run))) = attempts args /\
  Z.of_nat (List.length (metrics_invalid (final run))) = attempts args /\
  (forall i, (i < Z.to_nat (attempts args))%nat ->
     exists hv hi,
       reply steady args valid (2 * i) = Some hv /\
       reply steady args invalid (2 * i + 1) = Some hi /\
       nth_error (metrics_valid (final run)) i
         = Some (extract_timings hv (precision args)) /\
       nth_error (metrics_invalid (final run)) i
         = Some (extract_timings hi (precision args))) /\
  (forall c,
     (Forall (fun m => ~ TotalTime m == 0) (series c (final run)) ->
      exists ys, y_axis (series c (final run)) = Ok ys) /\
     (forall ys,
        y_axis (series c (final run)) = Ok ys ->
        List.length ys = List.length (series c (final run)) /\
        forall i m, nth_error (series c (final run)) i = Some m ->
          nth_error ys i = Some (StartTransferTime m / TotalTime m))).
Proof.
  apply (sampling_loop_series steady (example_args 5 50 3)).
  - simpl. lia.
  - apply steady_all_answered.
Defined.

(** C4.  If any request of the run fails, the script ends with the
    transport's exception: the two series have equal lengths at that point,
    no signal series is derived, no mean is logged and nothing is handed to
    the plotting library. *)
Theorem request_failure_aborts network (args : Namespace) :
  some_fails network args 0 (Z.to_nat (attempts args)) ->
  let run := script network args initial in
  outcome run = Raise PycurlError /\
  List.length (metrics_valid (final run)) = List.length (metrics_invalid (final run)) /\
  Forall (fun e => is_report e = false) (events run).
Proof.
  intros Hfail run. subst run.
  destruct (for_range_trial network args (Z.to_nat (attempts args)) 0 initial)
    as (vs & ws & tail & Hlen & Hmv & Hmi & Hev & Hend & Hrec).
  fold (sampling_loop network args) in Hmv, Hmi, Hev, Hend.
  rewrite script_unfold.
  destruct (sampling_loop network args initial) as [[r s1] t1].
  unfold outcome, final, events in *. simpl in *.
  assert (Hr : r = Raise PycurlError).
  { inversion Hend as [ Hm Ho | | ]; try reflexivity.
    exfalso. eapply some_fails_not_all_answered; [ exact Hfail | ].
    eapply completed_all_answered; eauto. }
  subst r. simpl. repeat split.
  - congruence.
  - constructor; [ reflexivity | ]. rewrite Hev. apply Forall_app. split.
    + apply loop_events_quiet.
    + eapply loop_end_quiet. exact Hend.
Qed.

Lemma request_failure_aborts_witness :
  let run := script refused_at_third (example_args 10 50 3) initial in
  outcome run = Raise PycurlError /\
  List.length (metrics_valid (final run)) = List.length (metrics_invalid (final run)) /\
  Forall (fun e => is_report e = false) (events run).
Proof.
  apply (request_failure_aborts refused_at_third (example_args 10 50 3)).
  exists 2%nat. split; [ simpl; lia | left; reflexivity ].
Defined.

(** C9, as the code has it.  The loop is strictly sequential and
    interleaved: its events are the blocks of the completed trials in trial
    order, each block being the valid request, the closing of its handle,
    the invalid request, the closing of its handle, the progress line and
    only then the two appends (valid first); after the last block comes
    nothing, or the requests of the trial on which the loop died.  So the
    valid request of a trial completes before its invalid request is issued,
    both records of a trial are appended after both of its requests and
    before the next trial begins, and the classes are never batched. *)
Theorem sampling_is_interleaved network (args : Namespace) :
  let run := sampling_loop network args initial in
  exists tail,
    events run
      = loop_events args 0 (metrics_valid (final run)) (metrics_invalid (final run))
        ++ tail /\
    List.length (metrics_valid (final run)) = List.length (metrics_invalid (final run)) /\
    loop_end network args 0 (Z.to_nat (attempts args))
      (List.length (metrics_valid (final run))) (outcome run) tail.
Proof.
  intros run. subst run.
  destruct (for_range_trial network args (Z.to_nat (attempts args)) 0 initial)
    as (vs & ws & tail & Hlen & Hmv & Hmi & Hev & Hend & _).
  fold (sampling_loop network args) in Hmv, Hmi, Hev, Hend.
  simpl in Hmv, Hmi. exists tail. rewrite Hmv, Hmi.
  repeat split; assumption.
Qed.

(** C9, counterexample.  In a run of one trial the invalid request is
    sent before any record has been appended: the valid record is not
    appended before the invalid request is issued. *)
Lemma valid_record_appended_after_invalid_request :
  events (sampling_loop steady (example_args 1 50 3) initial)
    = [ SendRequest (target (example_args 1 50 3)) (valid_post (example_args 1 50 3));
        CurlClose;
        SendRequest (target (example_args 1 50 3)) (invalid_post (example_args 1 50 3));
        CurlClose;
        LogProcessed 0 1;
        MetricsAppend valid (extract_timings (mkCurl 1 2 3 80 100) 3);
        MetricsAppend invalid (extract_timings (mkCurl 1 2 3 20 100) 3) ] /\
  appended_before_next_request true
    (events (sampling_loop steady (example_args 1 50 3) initial)) = false.
Proof. split; reflexivity. Qed.

(** ** The command line *)

Section Options.

Import Argparse.

Lemma dest_eqb_eq (a b : dest) : dest_eqb a b = true <-> a = b.
Proof. destruct a, b; simpl; split; intros H; try reflexivity; discriminate. Qed.

Lemma set_keeps (d d' : dest) (v : string) (ns ns' : Namespace) :
  store_value d v ns = Ok ns' -> dest_eqb d' d = false -> value_of d' ns' = value_of d' ns.
Proof.
  unfold store_value. intros H Hd.
  destruct d; destruct (int v); try discriminate; inversion H; subst;
    destruct d'; simpl in *; try reflexivity; discriminate.
Qed.

Lemma consume_keeps (d : dest) (n : nat) : forall items ns extras odd r,
  (List.length items <= n)%nat ->
  consume items ns extras odd = Ok r ->
  Forall (fun p => selects d (snd p) = false) items ->
  value_of d r = value_of d ns.
Proof.
  induction n as [ | n IH ]; intros items ns extras odd r Hlen Hrun Hnot.
  - destruct items; [ | simpl in Hlen; lia ].
    simpl in Hrun. destruct extras; [ discriminate | ].
    destruct odd; [ | discriminate ]. inversion Hrun. reflexivity.
  - destruct items as [ | [ s it ] rest ].
    + simpl in Hrun. destruct extras; [ discriminate | ].
      destruct odd; [ | discriminate ]. inversion Hrun. reflexivity.
    + inversion Hnot as [ | p l Hit Hrest ]; subst. simpl in Hit, Hlen.
      assert (Hn : (List.length rest <= n)%nat) by lia.
      destruct it as [ | | a os e ].
      * simpl in Hrun. eapply IH; eauto.
      * simpl in Hrun. eapply IH; eauto.
      * destruct a as [ [ | d0 ] | ].
        -- simpl in Hrun. destruct e as [ e | ]; [ | discriminate ].
           destruct ((os =? "-h")%string && negb (e =? "")%string && all_h e);
             discriminate.
        -- destruct e as [ e | ]; simpl in Hrun.
           ++ destruct (e =? "--")%string; [ eapply IH; eauto | ].
              destruct (store_value d0 e ns) as [ ns' | x ] eqn:E; [ | discriminate ].
              rewrite (IH _ _ _ _ _ Hn Hrun Hrest).
              eapply set_keeps; eauto.
           ++ destruct rest as [ | [ v [ | | a' os' e' ] ] rest' ]; try discriminate.
              destruct (store_value d0 v ns) as [ ns' | x ] eqn:E; [ | discriminate ].
              inversion Hrest as [ | p' l' _ Hrest' ]; subst.
              assert (Hn' : (List.length rest' <= n)%nat) by (simpl in Hn; lia).
              rewrite (IH _ _ _ _ _ Hn' Hrun Hrest').
              eapply set_keeps; eauto.
        -- simpl in Hrun. eapply IH; eauto.
Qed.

Lemma find_store (s : string) (d : dest) :
  find option_string_actions s = Some (store d) -> s = option_string_of d.
Proof.
  unfold option_string_actions. cbn [find].
  repeat match goal with
    | |- context [ String.eqb ?a s ] =>
        destruct (String.eqb_spec a s);
        [ intros H; inversion H; subst; reflexivity | ]
    end.
  discriminate.
Qed.

Lemma startswith_app (l x p : string) :
  startswith l p = true -> startswith (l ++ x) p = true.
Proof.
  revert l. induction p as [ | c p IH ]; intros l H; [ reflexivity | ].
  destruct l as [ | c' l ]; [ discriminate | ]. simpl in *.
  apply andb_true_iff in H. destruct H as [ Hc Hl ].
  rewrite Hc. simpl. apply IH. exact Hl.
Qed.

Lemma split_eq_spec (s l r : string) :
  split_eq s = Some (l, r) -> s = (l ++ String "=" r)%string.
Proof.
  revert l. induction s as [ | c s IH ]; intros l H; [ discriminate | ].
  simpl in H. destruct (Ascii.eqb_spec c "="%char).
  - inversion H; subst. reflexivity.
  - destruct (split_eq s) as [ [ l' r' ] | ]; [ | discriminate ].
    inversion H; subst. simpl. rewrite (IH l' eq_refl). reflexivity.
Qed.

Lemma startswith_enumerate (s p : string) :
  startswith s p = true -> In p (prefixes s).
Proof.
  revert s. induction p as [ | c p IH ]; intros s H.
  - destruct s; simpl; auto.
  - destruct s as [ | c' s ]; [ discriminate | ]. simpl in H.
    apply andb_true_iff in H. destruct H as [ Hc Hs ].
    apply Ascii.eqb_eq in Hc. subst c'.
    simpl. right. apply in_map. apply IH. exact Hs.
Qed.

(** The one option string that a long abbreviation stands for starts with
    the shortest abbreviation of its destination. *)
Lemma unique_long_match (p : string) (d : dest) (os : string) (e e' : option string) :
  flat_map (fun entry =>
              if startswith (fst entry) p then [ (snd entry, fst entry, e) ] else [])
           option_string_actions
    = [ (store d, os, e') ] ->
  startswith p (shortest_abbreviation d) = true.
Proof.
  intros H.
  assert (Hin : In (store d, os, e')
                  (flat_map (fun entry =>
                     if startswith (fst entry) p then [ (snd entry, fst entry, e) ] else [])
                     option_string_actions)).
  { rewrite H. left. reflexivity. }
  apply in_flat_map in Hin. destruct Hin as ([ os0 a0 ] & Htab & Hsel).
  simpl in Hsel. destruct (startswith os0 p) eqn:Hp; [ | contradiction ].
  destruct Hsel as [ Hsel | [] ]. inversion Hsel; subst.
  assert (Hos : os = option_string_of d).
  { unfold option_string_actions in Htab. simpl in Htab.
    repeat (destruct Htab as [ Htab | Htab ];
            [ inversion Htab; subst; try discriminate; reflexivity | ]).
    contradiction. }
  subst os. clear Htab Hsel.
  apply startswith_enumerate in Hp.
  destruct d; simpl in Hp;
    repeat (destruct Hp as [ Hp | Hp ];
            [ subst p; vm_compute in H; try discriminate H; reflexivity | ]);
    contradiction.
Qed.

Lemma short_match_is_help (c : ascii) (rest : string)
      (a : action) (os : string) (e : option string) :
  (c =? "-")%char = false ->
  In (a, os, e)
     (flat_map (fun entry =>
                  if (fst entry =? first_two (String "-" (String c rest)))%string
                  then [ (snd entry, fst entry,
                          Some (after_two (String "-" (String c rest)))) ]
                  else if startswith (fst entry) (String "-" (String c rest))
                  then [ (snd entry, fst entry, None) ]
                  else [])
               option_string_actions) ->
  a = help.
Proof.
  intros Hc Hin.
  assert (Hc' : ("-" =? c)%char = false) by (rewrite Ascii.eqb_sym; exact Hc).
  apply in_flat_map in Hin. destruct Hin as ([ os0 a0 ] & Htab & Hsel).
  unfold option_string_actions in Htab. cbn [In] in Htab.
  repeat (destruct Htab as [ Htab | Htab ];
          [ inversion Htab; subst os0 a0; clear Htab;
            cbn -[Ascii.eqb] in Hsel;
            rewrite ?Ascii.eqb_refl in Hsel; rewrite ?Hc' in Hsel;
            cbn -[Ascii.eqb] in Hsel;
            repeat match type of Hsel with
              | context [ if ?b then _ else _ ] => destruct b
              end;
            cbn [In] in Hsel;
            repeat (destruct Hsel as [ Hsel | Hsel ]; [ inversion Hsel; reflexivity | ]);
            contradiction
          | ]).
  contradiction.
Qed.

Lemma selects_store (d : dest) (a : option action) (os : string) (e : option string) :
  selects d (O a os e) = true -> a = Some (store d).
Proof.
  destruct a as [ [ | d' ] | ]; simpl; intros H; try discriminate.
  apply dest_eqb_eq in H. subst. reflexivity.
Qed.

Lemma option_string_starts (d : dest) :
  startswith (option_string_of d) (shortest_abbreviation d) = true.
Proof. destruct d; reflexivity. Qed.

(** An argument that stands for the option of [d] starts with the shortest
    abbreviation of that option. *)
Lemma parse_optional_selects (s : string) (it : item) (d : dest) :
  _parse_optional s = Ok it ->
  selects d it = true ->
  startswith s (shortest_abbreviation d) = true.
Proof.
  unfold _parse_optional.
  destruct s as [ | c rest ]; [ intros H; inversion H; discriminate | ].
  destruct (Ascii.eqb_spec c "-"%char) as [ -> | Hc ]; cbn [negb];
    [ | intros H; inversion H; discriminate ].
  destruct (find option_string_actions (String "-" rest)) as [ a | ] eqn:F.
  { intros H Hsel. inversion H; subst it. apply selects_store in Hsel.
    inversion Hsel; subst a. apply find_store in F. rewrite F.
    apply option_string_starts. }
  destruct rest as [ | c2 rest ]; [ intros H; inversion H; discriminate | ].
  set (s := String "-" (String c2 rest)) in *.
  destruct (split_eq s) as [ [ l r ] | ] eqn:Sp.
  - destruct (find option_string_actions l) as [ a | ] eqn:Fl.
    { intros H Hsel. inversion H; subst it. apply selects_store in Hsel.
      inversion Hsel; subst a. apply find_store in Fl.
      rewrite (split_eq_spec _ _ _ Sp), Fl.
      apply startswith_app, option_string_starts. }
    destruct (_get_option_tuples s) as [ | [ [ a os ] e ] [ | t ts ] ] eqn:T.
    + destruct (negative_number s); [ intros H; inversion H; discriminate | ].
      destruct (contains_space s); intros H; inversion H; discriminate.
    + intros H Hsel. inversion H; subst it. apply selects_store in Hsel.
      inversion Hsel; subst a.
      unfold _get_option_tuples in T. rewrite Sp in T. cbn [option_map snd] in T.
      destruct (second_is_dash s) eqn:Sd.
      * apply unique_long_match in T.
        rewrite (split_eq_spec _ _ _ Sp). apply startswith_app. exact T.
      * assert (Hin : In (store d, os, e) [ (store d, os, e) ]) by (left; reflexivity).
        rewrite <- T in Hin. apply short_match_is_help in Hin; [ discriminate | ].
        exact Sd.
    + discriminate.
  - destruct (_get_option_tuples s) as [ | [ [ a os ] e ] [ | t ts ] ] eqn:T.
    + destruct (negative_number s); [ intros H; inversion H; discriminate | ].
      destruct (contains_space s); intros H; inversion H; discriminate.
    + intros H Hsel. inversion H; subst it. apply selects_store in Hsel.
      inversion Hsel; subst a.
      unfold _get_option_tuples in T. rewrite Sp in T. cbn [option_map] in T.
      destruct (second_is_dash s) eqn:Sd.
      * apply unique_long_match in T. exact T.
      * assert (Hin : In (store d, os, e) [ (store d, os, e) ]) by (left; reflexivity).
        rewrite <- T in Hin. apply short_match_is_help in Hin; [ discriminate | ].
        exact Sd.
    + discriminate.
Qed.

Lemma pattern_items (argv : list string) : forall items,
  pattern argv = Ok items ->
  Forall (fun p => snd p = A \/ snd p = Dash \/ _parse_optional (fst p) = Ok (snd p))
         (combine argv items).
Proof.
  induction argv as [ | s rest IH ]; intros items H.
  - constructor.
  - simpl in H. destruct (s =? "--")%string.
    + inversion H; subst. simpl. constructor; [ right; left; reflexivity | ].
      clear. induction rest as [ | s' rest IH ]; simpl; constructor; auto.
    + destruct (_parse_optional s) as [ it | e ] eqn:P; [ | discriminate ].
      destruct (pattern rest) as [ its | e ] eqn:Q; [ | discriminate ].
      inversion H; subst. simpl. constructor; [ right; right; exact P | ].
      apply IH. reflexivity.
Qed.

Lemma combine_fst_in {X Y} (xs : list X) (ys : list Y) (p : X * Y) :
  In p (combine xs ys) -> In (fst p) xs.
Proof. destruct p. apply in_combine_l. Qed.

(** A destination that no argument names keeps its default. *)
Lemma parse_args_not_given (d : dest) (argv : list string) (args : Namespace) :
  parse_args argv = Ok args ->
  not_given d argv ->
  value_of d args = value_of d defaults.
Proof.
  unfold parse_args, not_given. intros H Hnot.
  destruct (forallb ascii_only argv); cbn [negb] in H; [ | discriminate ].
  destruct (pattern argv) as [ items | e ] eqn:P; [ | discriminate ].
  apply (consume_keeps d (List.length (combine argv items)) _ _ _ _ _ (le_n _) H).
  pose proof (pattern_items argv items P) as Hitems.
  rewrite Forall_forall in *. intros p Hp.
  destruct (selects d (snd p)) eqn:Hsel; [ exfalso | reflexivity ].
  destruct (Hitems p Hp) as [ E | [ E | E ] ].
  - rewrite E in Hsel. discriminate.
  - rewrite E in Hsel. discriminate.
  - pose proof (parse_optional_selects _ _ d E Hsel) as Hs.
    rewrite (Hnot (fst p) (combine_fst_in _ _ _ Hp)) in Hs. discriminate.
Qed.

End Options.

(** ** What the script can raise, and how it starts *)

Section ScriptShape.

Variable network : nat -> option string -> option string -> option Curl.
Variable args : Namespace.

Lemma mean_raises (xs : list Q) (e : exn) :
  Statistics.mean xs = Raise e -> e = StatisticsError.
Proof.
  destruct xs; simpl; intros H; [ inversion H; reflexivity | discriminate ].
Qed.

Lemma reduce_outcome (s : state) :
  (exists rep, outcome (reduce_and_plot args s) = Ok rep) \/
  outcome (reduce_and_plot args s) = Raise ZeroDivisionError \/
  outcome (reduce_and_plot args s) = Raise StatisticsError.
Proof.
  destruct (zero_or_not (metrics_valid s)) as [ Hv | Hv ].
  2:{ right. left. rewrite (reduce_valid_raises args s _ (y_axis_zero _ Hv)).
      reflexivity. }
  apply y_axis_nonzero in Hv.
  destruct (zero_or_not (metrics_invalid s)) as [ Hi | Hi ].
  2:{ right. left.
      rewrite (reduce_invalid_raises args s _ _ Hv (y_axis_zero _ Hi)).
      reflexivity. }
  apply y_axis_nonzero in Hi.
  destruct (Statistics.mean (map ratio (metrics_valid s))) as [ a | e ] eqn:Ea.
  - destruct (Statistics.mean (map ratio (metrics_invalid s))) as [ b | e ] eqn:Eb.
    + left. destruct (reduce_completes args s _ _ a b Hv Hi Ea Eb) as (lo & hi & E).
      rewrite E. eexists. reflexivity.
    + right. right. pose proof (mean_raises _ _ Eb). subst e.
      unfold reduce_and_plot, bind, get, lift, emit.
      rewrite Hv, Hi, Ea, Eb. reflexivity.
  - right. right. pose proof (mean_raises _ _ Ea). subst e.
    unfold reduce_and_plot, bind, get, lift.
    rewrite Hv, Hi, Ea. reflexivity.
Qed.



End ScriptShape.

(** C5, as the code has it.  A command line that sets attempts to 0 is
    accepted; the run then performs no request and plots nothing, and it
    fails inside the mean computation, on the empty series, with
    StatisticsError. *)
Theorem zero_attempts_fail_in_mean network (argv : list string) (args : Namespace) :
  Argparse.parse_args argv = Ok args ->
  attempts args = 0%Z ->
  main network argv = (Raise StatisticsError, initial, [ LogPassedArguments args ]).
Proof.
  intros Hparse Hzero. unfold main. rewrite Hparse, script_unfold.
  unfold sampling_loop. rewrite Hzero. reflexivity.
Qed.

Lemma zero_attempts_fail_in_mean_witness :
  main refusing [ "--attempts"%string; "0"%string ]
    = (Raise StatisticsError, initial,
       [ LogPassedArguments (mkNamespace None None None 0 50 3) ]).
Proof.
  apply (zero_attempts_fail_in_mean refusing [ "--attempts"%string; "0"%string ]
           (mkNamespace None None None 0 50 3)); reflexivity.
Defined.

(** C5, counterexample.  With [--attempts 0] the program is not stopped by
    a usage error: it ends with StatisticsError, raised by the mean. *)
Lemma zero_attempts_not_rejected :
  Argparse.parse_args [ "--attempts"%string; "0"%string ]
    = Ok (mkNamespace None None None 0 50 3) /\
  outcome (main refusing [ "--attempts"%string; "0"%string ]) = Raise StatisticsError /\
  outcome (main refusing [ "--attempts"%string; "0"%string ]) <> Raise UsageError.
Proof. repeat split; try reflexivity. discriminate. Qed.




(** ** The unused delay *)

(** C10, as the code has it.  Two runs against the same network whose
    arguments differ only in time_delay end with the same outcome (the same
    signal series and means, or the same exception), leave the same two
    series behind and perform the same events, with one exception: the
    first event of each run, the debug line of line 41, echoes the parsed
    arguments and so shows time_delay.  The script has no sleep: no event of
    a run is a delay. *)
Theorem time_delay_is_unused network (a b : Namespace) :
  same_but_time_delay a b ->
  outcome (script network a initial) = outcome (script network b initial) /\
  final (script network a initial) = final (script network b initial) /\
  events (script network a initial)
    = LogPassedArguments a :: tl (events (script network a initial)) /\
  events (script network b initial)
    = LogPassedArguments b :: tl (events (script network b initial)) /\
  tl (events (script network a initial)) = tl (events (script network b initial)).
Proof.
  destruct a as [ t v i n d p ], b as [ t' v' i' n' d' p' ].
  unfold same_but_time_delay. simpl.
  intros (<- & <- & <- & <- & <-).
  rewrite !script_unfold.
  change (sampling_loop network (mkNamespace t v i n d' p))
    with (sampling_loop network (mkNamespace t v i n d p)).
  destruct (sampling_loop network (mkNamespace t v i n d p) initial)
    as [[ [ [] | e ] s1 ] t1 ].
  - change (reduce_and_plot (mkNamespace t v i n d' p))
      with (reduce_and_plot (mkNamespace t v i n d p)).
    destruct (reduce_and_plot (mkNamespace t v i n d p) s1) as [[r2 s2] t2].
    repeat split.
  - repeat split.
Qed.

Lemma time_delay_is_unused_witness :
  let a := example_args 5 50 3 in
  let b := example_args 5 0 3 in
  outcome (script steady a initial) = outcome (script steady b initial) /\
  final (script steady a initial) = final (script steady b initial) /\
  events (script steady a initial)
    = LogPassedArguments a :: tl (events (script steady a initial)) /\
  events (script steady b initial)
    = LogPassedArguments b :: tl (events (script steady b initial)) /\
  tl (events (script steady a initial)) = tl (events (script steady b initial)).
Proof.
  apply (time_delay_is_unused steady (example_args 5 50 3) (example_args 5 0 3)).
  repeat split.
Defined.

(** C10, counterexample.  Two runs that differ only in time_delay do not
    perform the same events: each starts with the debug line that echoes its
    arguments, time_delay included. *)
Lemma time_delay_shows_in_the_debug_line :
  same_but_time_delay (example_args 5 50 3) (example_args 5 0 3) /\
  hd_error (events (script steady (example_args 5 50 3) initial))
    = Some (LogPassedArguments (example_args 5 50 3)) /\
  hd_error (events (script steady (example_args 5 0 3) initial))
    = Some (LogPassedArguments (example_args 5 0 3)) /\
  events (script steady (example_args 5 50 3) initial)
    <> events (script steady (example_args 5 0 3) initial).
Proof.
  split; [ repeat split | ].
  split; [ reflexivity | ]. split; [ reflexivity | ].
  intros H.
  assert (E : hd_error (events (script steady (example_args 5 50 3) initial))
              = hd_error (events (script steady (example_args 5 0 3) initial)))
    by (rewrite H; reflexivity).
  vm_compute in E. discriminate E.
Qed.

(** ** The end-to-end scenario *)

Section Scenario.

Variable network : nat -> option string -> option string -> option Curl.
Variable args : Namespace.

(** Records read off handles that all report the same start-of-transfer
    and total times, which the rounding keeps, hold these times. *)
Lemma constant_series (c : class) (number : nat -> nat) (n : nat)
      (vs : list TimingRecord) (st tt : Q) :
  Num.round st (precision args) == st ->
  Num.round tt (precision args) == tt ->
  List.length vs = n ->
  (forall j, (j < n)%nat -> nth_error vs j = timings network args c (number j)) ->
  (forall j, (j < n)%nat ->
     exists h, reply network args c (number j) = Some h /\
               STARTTRANSFER_TIME h == st /\ TOTAL_TIME h == tt) ->
  Forall (fun m => StartTransferTime m == st /\ TotalTime m == tt) vs.
Proof.
  intros Rst Rtt Hlen Hrec Hnet. apply Forall_forall. intros m Hin.
  destruct (In_nth_error vs m Hin) as [ j Hj ].
  assert (Hlt : (j < n)%nat).
  { rewrite <- Hlen. apply nth_error_Some. rewrite Hj. discriminate. }
  destruct (Hnet j Hlt) as (h & Hh & Hst & Htt).
  rewrite (Hrec j Hlt) in Hj. unfold timings in Hj. rewrite Hh in Hj.
  inversion Hj; subst m. simpl. split.
  - rewrite (round_comp _ _ (precision args) Hst). exact Rst.
  - rewrite (round_comp _ _ (precision args) Htt). exact Rtt.
Qed.

Lemma constant_signal (vs : list TimingRecord) (st tt : Q) :
  ~ tt == 0 ->
  Forall (fun m => StartTransferTime m == st /\ TotalTime m == tt) vs ->
  y_axis vs = Ok (map ratio vs) /\
  Forall (fun y => y == st / tt) (map ratio vs).
Proof.
  intros Hnz Hall. split.
  - apply y_axis_nonzero. eapply Forall_impl; [ | exact Hall ].
    intros m [ _ Hm ]. rewrite Hm. exact Hnz.
  - apply Forall_map. eapply Forall_impl; [ | exact Hall ].
    intros m [ Hs Ht ]. unfold ratio. rewrite Hs, Ht. reflexivity.
Qed.

End Scenario.

(** C7, as the code has it.  Against a network whose handles report, on
    each of 5 trials, a total of 0.1 s (100 ms) with the first byte after
    0.08 s (80 ms) for the valid request and a total of 0.1 s with the first
    byte after 0.02 s (20 ms) for the invalid one, and with a precision of at
    least 2 decimal places, the records keep these times, the run completes
    with two signal series of length 5 whose elements are the records'
    StartTransferTime / TotalTime, the mean of each class equals each signal
    of the class, the quotient 0.08 / 0.1 or 0.02 / 0.1 as the division
    gives it, and both means are logged as computed, without rounding. *)
Theorem end_to_end_scenario network (args : Namespace) :
  attempts args = 5%Z ->
  (2 <= precision args)%Z ->
  (forall j, (j < 5)%nat ->
     exists h, reply network args valid (2 * j) = Some h /\
               STARTTRANSFER_TIME h == 8 # 100 /\ TOTAL_TIME h == 1 # 10) ->
  (forall j, (j < 5)%nat ->
     exists h, reply network args invalid (2 * j + 1) = Some h /\
               STARTTRANSFER_TIME h == 2 # 100 /\ TOTAL_TIME h == 1 # 10) ->
  exists rep,
    outcome (script network args initial) = Ok rep /\
    List.length (y_axis_valid rep) = 5%nat /\
    List.length (y_axis_invalid rep) = 5%nat /\
    Forall (fun m => StartTransferTime m == 8 # 100 /\ TotalTime m == 1 # 10)
      (metrics_valid (final (script network args initial))) /\
    Forall (fun m => StartTransferTime m == 2 # 100 /\ TotalTime m == 1 # 10)
      (metrics_invalid (final (script network args initial))) /\
    y_axis_valid rep = map ratio (metrics_valid (final (script network args initial))) /\
    y_axis_invalid rep
      = map ratio (metrics_invalid (final (script network args initial))) /\
    (forall y, In y (y_axis_valid rep) -> mean_valid rep == y) /\
    (forall y, In y (y_axis_invalid rep) -> mean_invalid rep == y) /\
    In (LogAverage valid (mean_valid rep)) (events (script network args initial)) /\
    In (LogAverage invalid (mean_invalid rep)) (events (script network args initial)).
Proof.
  intros Hn Hprec Hvalid Hinvalid.
  assert (Hall : all_answered network args 0 5).
  { intros j Hj. split.
    - destruct (Hvalid j Hj) as (h & Hh & _).
      change (0 + 2 * j)%nat with (2 * j)%nat. rewrite Hh. discriminate.
    - destruct (Hinvalid j Hj) as (h & Hh & _).
      change (0 + 2 * j + 1)%nat with (2 * j + 1)%nat. rewrite Hh. discriminate. }
  destruct (for_range_trial network args 5 0 initial)
    as (vs & ws & tail & Hlen & Hmv & Hmi & Hev & Hend & Hrec).
  rewrite script_unfold. unfold sampling_loop. rewrite Hn.
  change (Z.to_nat 5) with 5%nat.
  destruct (for_range 0 5 (trial network args) initial) as [[r s1] t1].
  unfold outcome, final, events in *.
  cbn [fst snd metrics_valid metrics_invalid sent initial app] in *.
  assert (Hdone : r = Ok tt /\ List.length vs = 5%nat).
  { inversion Hend as [ Hm Ho | Hm Hv Ho | Hm Hv Hi Ho ].
    - split; [ reflexivity | exact Hm ].
    - exfalso. eapply failed_not_all_answered; [ | exact Hall ].
      rewrite Ho. exact Hend.
    - exfalso. eapply failed_not_all_answered; [ | exact Hall ].
      rewrite Ho. exact Hend. }
  destruct Hdone as [ -> Hfive ].
  assert (R8 : Num.round (8 # 100) (precision args) == 8 # 100)
    by (apply (round_hundredths _ 8); [ exact Hprec | reflexivity ]).
  assert (R2 : Num.round (2 # 100) (precision args) == 2 # 100)
    by (apply (round_hundredths _ 2); [ exact Hprec | reflexivity ]).
  assert (R10 : Num.round (1 # 10) (precision args) == 1 # 10)
    by (apply (round_hundredths _ 10); [ exact Hprec | reflexivity ]).
  assert (Pv : Forall (fun m => StartTransferTime m == 8 # 100
                               /\ TotalTime m == 1 # 10) vs).
  { apply (constant_series network args valid (fun j => 2 * j)%nat 5);
      try assumption.
    intros j Hj. apply Hrec. lia. }
  assert (Pw : Forall (fun m => StartTransferTime m == 2 # 100
                               /\ TotalTime m == 1 # 10) ws).
  { apply (constant_series network args invalid (fun j => 2 * j + 1)%nat 5);
      try assumption; try lia.
    intros j Hj. apply Hrec. lia. }
  destruct (constant_signal vs (8 # 100) (1 # 10) ltac:(discriminate) Pv) as [ Yv Cv ].
  destruct (constant_signal ws (2 # 100) (1 # 10) ltac:(discriminate) Pw) as [ Yw Cw ].
  assert (Nv : map ratio vs <> []) by (destruct vs; [ discriminate | discriminate ]).
  assert (Nw : map ratio ws <> []).
  { destruct ws; [ simpl in Hlen; lia | discriminate ]. }
  destruct (mean_nonempty _ Nv) as (a & Ma & Ea).
  destruct (mean_nonempty _ Nw) as (b & Mb & Eb).
  rewrite (arithmetic_mean_const _ _ Nv Cv) in Ea.
  rewrite (arithmetic_mean_const _ _ Nw Cw) in Eb.
  assert (Yv' : y_axis (metrics_valid s1) = Ok (map ratio vs))
    by (rewrite Hmv; exact Yv).
  assert (Yw' : y_axis (metrics_invalid s1) = Ok (map ratio ws))
    by (rewrite Hmi; exact Yw).
  destruct (reduce_completes args s1 _ _ a b Yv' Yw' Ma Mb) as (lo & hi & Hred).
  rewrite Hred. exists (mkReport (map ratio vs) (map ratio ws) a b).
  cbn [fst snd y_axis_valid y_axis_invalid mean_valid mean_invalid].
  rewrite Hmv, Hmi.
  split; [ reflexivity | ].
  split; [ rewrite length_map; exact Hfive | ].
  split; [ rewrite length_map; lia | ].
  split; [ exact Pv | ]. split; [ exact Pw | ].
  split; [ reflexivity | ]. split; [ reflexivity | ].
  split; [ | split; [ | split ] ].
  - intros y Hy. rewrite Forall_forall in Cv. rewrite (Cv y Hy). exact Ea.
  - intros y Hy. rewrite Forall_forall in Cw. rewrite (Cw y Hy). exact Eb.
  - right. apply in_or_app. right. left. reflexivity.
  - right. apply in_or_app. right. right. left. reflexivity.
Qed.

Lemma end_to_end_scenario_witness :
  let args := example_args 5 50 3 in
  exists rep,
    outcome (script scenario args initial) = Ok rep /\
    List.length (y_axis_valid rep) = 5%nat /\
    List.length (y_axis_invalid rep) = 5%nat /\
    Forall (fun m => StartTransferTime m == 8 # 100 /\ TotalTime m == 1 # 10)
      (metrics_valid (final (script scenario args initial))) /\
    Forall (fun m => StartTransferTime m == 2 # 100 /\ TotalTime m == 1 # 10)
      (metrics_invalid (final (script scenario args initial))) /\
    y_axis_valid rep = map ratio (metrics_valid (final (script scenario args initial))) /\
    y_axis_invalid rep
      = map ratio (metrics_invalid (final (script scenario args initial))) /\
    (forall y, In y (y_axis_valid rep) -> mean_valid rep == y) /\
    (forall y, In y (y_axis_invalid rep) -> mean_invalid rep == y) /\
    In (LogAverage valid (mean_valid rep)) (events (script scenario args initial)) /\
    In (LogAverage invalid (mean_invalid rep)) (events (script scenario args initial)).
Proof.
  apply (end_to_end_scenario scenario (example_args 5 50 3)).
  - reflexivity.
  - simpl. lia.
  - intros j Hj.
    do 5 (destruct j as [ | j ];
          [ eexists; split; [ reflexivity | split; reflexivity ] | ]).
    lia.
  - intros j Hj.
    do 5 (destruct j as [ | j ];
          [ eexists; split; [ reflexivity | split; reflexivity ] | ]).
    lia.
Defined.

(** C7, counterexample.  The same network at a precision of 1: the records
    hold 0.1 / 0.1 and 0.0 / 0.1, and the means are 1 and 0, not 0.8 and 0.2;
    at a precision of 0 the total is stored as 0 and the run ends with
    ZeroDivisionError. *)
Lemma scenario_depends_on_precision :
  (exists rep,
     outcome (script scenario (example_args 5 50 1) initial) = Ok rep /\
     mean_valid rep == 1 /\ mean_invalid rep == 0) /\
  outcome (script scenario (example_args 5 50 0) initial) = Raise ZeroDivisionError /\
  ~ 1 == 8 # 10 /\ ~ 0 == 2 # 10.
Proof.
  split; [ eexists; split; [ vm_compute; reflexivity | split; vm_compute; reflexivity ] | ].
  split; [ vm_compute; reflexivity | ]. split; discriminate.
Qed.

(** ** Further properties of the script *)

Lemma reduce_inv (args : Namespace) (s s' : state) (rep : report) (t : list event) :
  reduce_and_plot args s = (Ok rep, s', t) ->
  s' = s /\
  y_axis (metrics_valid s) = Ok (y_axis_valid rep) /\
  y_axis (metrics_invalid s) = Ok (y_axis_invalid rep) /\
  Statistics.mean (y_axis_valid rep) = Ok (mean_valid rep) /\
  Statistics.mean (y_axis_invalid rep) = Ok (mean_invalid rep) /\
  exists lo hi,
    Py.min (y_axis_valid rep) = Ok lo /\
    Py.max (y_axis_valid rep) = Ok hi /\
    t = report_events args rep lo hi.
Proof.
  unfold reduce_and_plot, bind, get, lift, emit, ret.
  destruct (y_axis (metrics_valid s)) as [ yv | e ]; [ | discriminate ].
  destruct (y_axis (metrics_invalid s)) as [ yi | e ]; [ | discriminate ].
  destruct (Statistics.mean yv) as [ a | e ] eqn:Ea; [ | discriminate ].
  destruct (Statistics.mean yi) as [ b | e ] eqn:Eb; [ | discriminate ].
  destruct (Py.min yv) as [ lo | e ] eqn:Elo; [ | discriminate ].
  destruct (Py.max yv) as [ hi | e ] eqn:Ehi; [ | discriminate ].
  simpl. intros H. inversion H; subst. simpl.
  repeat split; try assumption.
  exists lo, hi. repeat split; assumption.
Qed.

(** A script that completes: its loop has completed and the report is the
    reducer's. *)
Lemma script_inv network (args : Namespace) (rep : report) :
  outcome (script network args initial) = Ok rep ->
  outcome (sampling_loop network args initial) = Ok tt /\
  final (script network args initial) = final (sampling_loop network args initial) /\
  exists lo hi,
    reduce_and_plot args (final (sampling_loop network args initial))
      = (Ok rep, final (sampling_loop network args initial), report_events args rep lo hi) /\
    events (script network args initial)
      = LogPassedArguments args :: events (sampling_loop network args initial)
          ++ report_events args rep lo hi.
Proof.
  rewrite script_unfold.
  destruct (sampling_loop network args initial) as [[ [ [] | e ] s1 ] t1 ];
    [ | discriminate ].
  destruct (reduce_and_plot args s1) as [[r2 s2] t2] eqn:Ered.
  unfold outcome, final, events. simpl. intros ->.
  destruct (reduce_inv args s1 s2 rep t2 Ered) as (-> & _ & _ & _ & _ & lo & hi & _ & _ & ->).
  repeat split. exists lo, hi. split; [ exact Ered | reflexivity ].
Qed.

Section Completed.

Variable network : nat -> option string -> option string -> option Curl.
Variable args : Namespace.

Lemma loop_completed :
  outcome (sampling_loop network args initial) = Ok tt ->
  List.length (metrics_valid (final (sampling_loop network args initial)))
    = Z.to_nat (attempts args) /\
  List.length (metrics_invalid (final (sampling_loop network args initial)))
    = Z.to_nat (attempts args) /\
  events (sampling_loop network args initial)
    = loop_events args 0
        (metrics_valid (final (sampling_loop network args initial)))
        (metrics_invalid (final (sampling_loop network args initial))) /\
  (forall j, (j < Z.to_nat (attempts args))%nat ->
     nth_error (metrics_valid (final (sampling_loop network args initial))) j
       = timings network args valid (2 * j) /\
     nth_error (metrics_invalid (final (sampling_loop network args initial))) j
       = timings network args invalid (2 * j + 1)).
Proof.
  intros Hok.
  destruct (for_range_trial network args (Z.to_nat (attempts args)) 0 initial)
    as (vs & ws & tail & Hlen & Hmv & Hmi & Hev & Hend & Hrec).
  fold (sampling_loop network args) in Hmv, Hmi, Hev, Hend.
  simpl in Hmv, Hmi, Hrec. rewrite Hok in Hend. rewrite Hmv, Hmi, Hev.
  inversion Hend as [ Hm | | ]. rewrite app_nil_r.
  repeat split; try congruence.
  - apply Hrec. lia.
  - apply Hrec. lia.
Qed.

(** Every record of a completed loop was extracted from an answer of the
    network. *)
Lemma completed_records (c : class) (m : TimingRecord) :
  outcome (sampling_loop network args initial) = Ok tt ->
  In m (series c (final (sampling_loop network args initial))) ->
  exists k h, reply network args c k = Some h /\
              m = extract_timings h (precision args).
Proof.
  intros Hok Hin.
  destruct (loop_completed Hok) as (Lv & Lw & _ & Hrec).
  destruct (In_nth_error _ _ Hin) as [ j Hj ].
  assert (Hlt : (j < Z.to_nat (attempts args))%nat).
  { destruct c; simpl in Hj; [ rewrite <- Lv | rewrite <- Lw ];
      apply nth_error_Some; rewrite Hj; discriminate. }
  destruct (Hrec j Hlt) as [ Hv Hw ].
  destruct c; simpl in Hj.
  - rewrite Hv in Hj. unfold timings in Hj.
    destruct (reply network args valid (2 * j)) as [ h | ] eqn:E; [ | discriminate ].
    exists (2 * j)%nat, h. split; [ exact E | ]. inversion Hj. reflexivity.
  - rewrite Hw in Hj. unfold timings in Hj.
    destruct (reply network args invalid (2 * j + 1)) as [ h | ] eqn:E; [ | discriminate ].
    exists (2 * j + 1)%nat, h. split; [ exact E | ]. inversion Hj. reflexivity.
Qed.

End Completed.

Lemma range_length (a b : Z) : List.length (Py.range a b) = Z.to_nat (b - a).
Proof. unfold Py.range. rewrite length_map, length_seq. reflexivity. Qed.

Lemma range_nth (a b : Z) (i : nat) :
  (i < Z.to_nat (b - a))%nat ->
  nth_error (Py.range a b) i = Some (a + Z.of_nat i)%Z.
Proof.
  intros Hi. unfold Py.range.
  rewrite nth_error_map, nth_error_seq.
  destruct (Nat.ltb_spec i (Z.to_nat (b - a))); [ reflexivity | lia ].
Qed.

Lemma mean_Ok_nonempty (xs : list Q) (mu : Q) :
  Statistics.mean xs = Ok mu -> xs <> [].
Proof. destruct xs; [ discriminate | discriminate ]. Qed.

(** X1.  A run that completes has at least one trial, and it plots one point per
    trial: both signal series and the x axis, which is 1, 2, ..., attempts,
    have exactly attempts elements, and these are the lists handed to the two
    plot calls. *)
Theorem completed_run_plots_one_point_per_trial network (args : Namespace) (rep : report) :
  outcome (script network args initial) = Ok rep ->
  (1 <= attempts args)%Z /\
  Z.of_nat (List.length (y_axis_valid rep)) = attempts args /\
  Z.of_nat (List.length (y_axis_invalid rep)) = attempts args /\
  Z.of_nat (List.length (Py.range 1 (attempts args + 1))) = attempts args /\
  (forall i, (Z.of_nat i < attempts args)%Z ->
     nth_error (Py.range 1 (attempts args + 1)) i = Some (Z.of_nat i + 1)%Z) /\
  In (PltPlot (Py.range 1 (attempts args + 1)) (y_axis_valid rep) "b")
     (events (script network args initial)) /\
  In (PltPlot (Py.range 1 (attempts args + 1)) (y_axis_invalid rep) "r")
     (events (script network args initial)).
Proof.
  intros Hok.
  destruct (script_inv network args rep Hok) as (Hloop & _ & lo & hi & Hred & Hev).
  destruct (reduce_inv _ _ _ _ _ Hred) as (_ & Yv & Yw & Mv & _ & _).
  destruct (loop_completed network args Hloop) as (Lv & Lw & _ & _).
  apply y_axis_Ok in Yv. destruct Yv as [ Ev _ ].
  apply y_axis_Ok in Yw. destruct Yw as [ Ew _ ].
  assert (Hlv : List.length (y_axis_valid rep) = Z.to_nat (attempts args)).
  { rewrite Ev, length_map. exact Lv. }
  assert (Hlw : List.length (y_axis_invalid rep) = Z.to_nat (attempts args)).
  { rewrite Ew, length_map. exact Lw. }
  assert (Hpos : (1 <= attempts args)%Z).
  { pose proof (mean_Ok_nonempty _ _ Mv) as Hne.
    destruct (y_axis_valid rep); [ contradiction | ]. simpl in Hlv. lia. }
  split; [ exact Hpos | ].
  split; [ rewrite Hlv; lia | ].
  split; [ rewrite Hlw; lia | ].
  split; [ rewrite range_length; lia | ].
  split.
  - intros i Hi. rewrite range_nth by lia. f_equal. lia.
  - rewrite Hev. split; right; apply in_or_app; right; unfold report_events; simpl; tauto.
Qed.

Section MinMax.

Lemma fold_min_spec (xs : list Q) : forall a,
  let r := fold_left (fun m y => if Qlt_le_dec y m then y else m) xs a in
  r <= a /\ Forall (fun y => r <= y) xs /\ (r = a \/ In r xs).
Proof.
  induction xs as [ | x xs IH ]; intros a; simpl.
  - repeat split; [ apply Qle_refl | constructor | left; reflexivity ].
  - destruct (IH (if Qlt_le_dec x a then x else a)) as (H1 & H2 & H3).
    destruct (Qlt_le_dec x a) as [ Hlt | Hle ].
    + repeat split.
      * eapply Qle_trans; [ exact H1 | apply Qlt_le_weak; exact Hlt ].
      * constructor; assumption.
      * destruct H3 as [ -> | H3 ]; right; [ left; reflexivity | right; exact H3 ].
    + repeat split.
      * exact H1.
      * constructor; [ eapply Qle_trans; eauto | assumption ].
      * destruct H3 as [ -> | H3 ]; [ left; reflexivity | right; right; exact H3 ].
Qed.

Lemma fold_max_spec (xs : list Q) : forall a,
  let r := fold_left (fun m y => if Qlt_le_dec m y then y else m) xs a in
  a <= r /\ Forall (fun y => y <= r) xs /\ (r = a \/ In r xs).
Proof.
  induction xs as [ | x xs IH ]; intros a; simpl.
  - repeat split; [ apply Qle_refl | constructor | left; reflexivity ].
  - destruct (IH (if Qlt_le_dec a x then x else a)) as (H1 & H2 & H3).
    destruct (Qlt_le_dec a x) as [ Hlt | Hle ].
    + repeat split.
      * eapply Qle_trans; [ apply Qlt_le_weak; exact Hlt | exact H1 ].
      * constructor; assumption.
      * destruct H3 as [ -> | H3 ]; right; [ left; reflexivity | right; exact H3 ].
    + repeat split.
      * exact H1.
      * constructor; [ eapply Qle_trans; eauto | assumption ].
      * destruct H3 as [ -> | H3 ]; [ left; reflexivity | right; right; exact H3 ].
Qed.

Lemma min_spec (xs : list Q) (m : Q) :
  Py.min xs = Ok m -> In m xs /\ Forall (fun y => m <= y) xs.
Proof.
  destruct xs as [ | x xs ]; [ discriminate | ].
  simpl. intros H. inversion H as [ E ]. clear H.
  destruct (fold_min_spec xs x) as (H1 & H2 & H3). rewrite E in *.
  split.
  - destruct H3 as [ -> | H3 ]; [ left; reflexivity | right; exact H3 ].
  - constructor; assumption.
Qed.

Lemma max_spec (xs : list Q) (m : Q) :
  Py.max xs = Ok m -> In m xs /\ Forall (fun y => y <= m) xs.
Proof.
  destruct xs as [ | x xs ]; [ discriminate | ].
  simpl. intros H. inversion H as [ E ]. clear H.
  destruct (fold_max_spec xs x) as (H1 & H2 & H3). rewrite E in *.
  split.
  - destruct H3 as [ -> | H3 ]; [ left; reflexivity | right; exact H3 ].
  - constructor; assumption.
Qed.

End MinMax.

(** X2.  When no valid signal is negative, the window set on the y axis (5 %
    below the smallest and 5 % above the largest valid signal) contains
    every valid signal. *)
Theorem axis_window_frames_valid_series network (args : Namespace) (rep : report) :
  outcome (script network args initial) = Ok rep ->
  Forall (fun y => 0 <= y) (y_axis_valid rep) ->
  exists ymin ymax,
    In (PltAxis 1 (attempts args) ymin ymax) (events (script network args initial)) /\
    Forall (fun y => ymin <= y /\ y <= ymax) (y_axis_valid rep).
Proof.
  intros Hok Hnn.
  destruct (script_inv network args rep Hok) as (_ & _ & lo & hi & Hred & Hev).
  destruct (reduce_inv _ _ _ _ _ Hred) as (_ & _ & _ & _ & _ & lo' & hi' & Hlo & Hhi & Et).
  exists (lo' - lo' * (5 # 100)), (hi' + hi' * (5 # 100)). split.
  - rewrite Hev, Et. right. apply in_or_app. right. unfold report_events. simpl. tauto.
  - destruct (min_spec _ _ Hlo) as [ Ilo Flo ].
    destruct (max_spec _ _ Hhi) as [ Ihi Fhi ].
    rewrite Forall_forall in Hnn, Flo, Fhi.
    pose proof (Hnn _ Ilo) as Nlo. pose proof (Hnn _ Ihi) as Nhi.
    apply Forall_forall. intros y Hy.
    pose proof (Flo y Hy). pose proof (Fhi y Hy). split; lra.
Qed.

(** X3.  The window is computed from the valid series alone: an invalid signal
    that exceeds every valid signal by more than 5 % lies above the upper
    limit of the y axis. *)
Theorem axis_window_ignores_invalid_series network (args : Namespace) (rep : report)
        (y : Q) :
  outcome (script network args initial) = Ok rep ->
  In y (y_axis_invalid rep) ->
  (forall v, In v (y_axis_valid rep) -> v + v * (5 # 100) < y) ->
  exists ymin ymax,
    In (PltAxis 1 (attempts args) ymin ymax) (events (script network args initial)) /\
    ymax < y.
Proof.
  intros Hok Hy Habove.
  destruct (script_inv network args rep Hok) as (_ & _ & lo & hi & Hred & Hev).
  destruct (reduce_inv _ _ _ _ _ Hred) as (_ & _ & _ & _ & _ & lo' & hi' & Hlo & Hhi & Et).
  exists (lo' - lo' * (5 # 100)), (hi' + hi' * (5 # 100)). split.
  - rewrite Hev, Et. right. apply in_or_app. right. unfold report_events. simpl. tauto.
  - destruct (max_spec _ _ Hhi) as [ Ihi _ ]. apply Habove. exact Ihi.
Qed.

Section Signals.

Lemma ratio_between_0_and_1 (h : Curl) (p : Z) :
  0 <= STARTTRANSFER_TIME h ->
  STARTTRANSFER_TIME h <= TOTAL_TIME h ->
  ~ TotalTime (extract_timings h p) == 0 ->
  0 <= ratio (extract_timings h p) /\ ratio (extract_timings h p) <= 1.
Proof.
  intros H0 H1 Hnz. unfold ratio. simpl in *.
  pose proof (round_nonneg _ p H0) as G0.
  pose proof (round_mono _ _ p H1) as G1.
  assert (Hpos : 0 < Num.round (TOTAL_TIME h) p).
  { destruct (Qlt_le_dec 0 (Num.round (TOTAL_TIME h) p)) as [ L | L ]; [ exact L | ].
    exfalso. apply Hnz. lra. }
  split.
  - apply Qle_shift_div_l; [ exact Hpos | lra ].
  - apply Qle_shift_div_r; [ exact Hpos | lra ].
Qed.

Lemma sum_bounds (lo hi : Q) (xs : list Q) :
  Forall (fun x => lo <= x /\ x <= hi) xs ->
  inject_Z (Z.of_nat (List.length xs)) * lo <= fold_right Qplus 0 xs /\
  fold_right Qplus 0 xs <= inject_Z (Z.of_nat (List.length xs)) * hi.
Proof.
  induction 1 as [ | x xs [ Hlo Hhi ] _ [ IHlo IHhi ] ].
  - simpl. change (inject_Z 0) with 0. split; lra.
  - cbn [fold_right List.length]. rewrite Nat2Z.inj_succ. unfold Z.succ.
    rewrite inject_Z_plus. change (inject_Z 1) with 1.
    set (n := inject_Z (Z.of_nat (List.length xs))) in *.
    setoid_replace ((n + 1) * lo) with (n * lo + lo) by ring.
    setoid_replace ((n + 1) * hi) with (n * hi + hi) by ring.
    split; lra.
Qed.

Lemma mean_bounds (lo hi : Q) (xs : list Q) (mu : Q) :
  Forall (fun x => lo <= x /\ x <= hi) xs ->
  Statistics.mean xs = Ok mu ->
  lo <= mu /\ mu <= hi.
Proof.
  intros Hall Hmu.
  pose proof (mean_Ok_nonempty _ _ Hmu) as Hne.
  destruct (mean_nonempty xs Hne) as (mu' & Hmu' & E).
  rewrite Hmu in Hmu'. inversion Hmu'; subst mu'. rewrite E.
  destruct (sum_bounds lo hi xs Hall) as [ Slo Shi ].
  assert (Hn : 0 < inject_Z (Z.of_nat (List.length xs))).
  { destruct xs; [ contradiction | ].
    unfold Qlt. simpl. lia. }
  unfold arithmetic_mean. split.
  - apply Qle_shift_div_l; [ exact Hn | ]. rewrite Qmult_comm. exact Slo.
  - apply Qle_shift_div_r; [ exact Hn | ]. rewrite Qmult_comm. exact Shi.
Qed.

End Signals.

(** X4.  When every answer of the network has 0 <= STARTTRANSFER_TIME <=
    TOTAL_TIME, every signal of a completed run, and with it each of the two
    logged means, lies between 0 and 1. *)
Theorem signals_and_means_between_0_and_1 network (args : Namespace) (rep : report) :
  outcome (script network args initial) = Ok rep ->
  (forall c k h, reply network args c k = Some h ->
     0 <= STARTTRANSFER_TIME h /\ STARTTRANSFER_TIME h <= TOTAL_TIME h) ->
  Forall (fun y => 0 <= y /\ y <= 1) (y_axis_valid rep) /\
  Forall (fun y => 0 <= y /\ y <= 1) (y_axis_invalid rep) /\
  (0 <= mean_valid rep /\ mean_valid rep <= 1) /\
  (0 <= mean_invalid rep /\ mean_invalid rep <= 1).
Proof.
  intros Hok Hnet.
  destruct (script_inv network args rep Hok) as (Hloop & _ & lo & hi & Hred & _).
  destruct (reduce_inv _ _ _ _ _ Hred) as (_ & Yv & Yw & Mv & Mw & _).
  assert (Hseries : forall c ys,
            y_axis (series c (final (sampling_loop network args initial))) = Ok ys ->
            Forall (fun y => 0 <= y /\ y <= 1) ys).
  { intros c ys Hys. apply y_axis_Ok in Hys. destruct Hys as [ -> Hnz ].
    apply Forall_map. rewrite Forall_forall in *. intros m Hm.
    destruct (completed_records network args c m Hloop Hm) as (k & h & Hk & ->).
    destruct (Hnet c k h Hk) as [ H0 H1 ].
    apply ratio_between_0_and_1; auto. }
  pose proof (Hseries valid _ Yv) as Fv.
  pose proof (Hseries invalid _ Yw) as Fw.
  repeat split; try assumption.
  - apply (mean_bounds 0 1 _ _ Fv Mv).
  - apply (mean_bounds 0 1 _ _ Fv Mv).
  - apply (mean_bounds 0 1 _ _ Fw Mw).
  - apply (mean_bounds 0 1 _ _ Fw Mw).
Qed.

Section Precision.

Lemma round_half_even_small (q : Q) :
  0 <= q -> q <= 1 # 2 -> Num.round_half_even q = 0%Z.
Proof.
  intros H0 H1.
  pose proof (Qfloor_le q) as Hf. pose proof (Qlt_floor q) as Hg.
  assert (F : Qfloor q = 0%Z).
  { assert (A : (Qfloor q < 1)%Z).
    { rewrite Zlt_Qlt. change (inject_Z 1) with 1. lra. }
    assert (B : (0 < Qfloor q + 1)%Z).
    { rewrite Zlt_Qlt. change (inject_Z 0) with 0. lra. }
    lia. }
  unfold Num.round_half_even. rewrite F.
  destruct (Qcompare (q - inject_Z 0) (1 # 2)) eqn:C; try reflexivity.
  apply Qgt_alt in C. change (inject_Z 0) with 0 in C. lra.
Qed.

Lemma round_small (x : Q) (ndigits : Z) :
  0 <= x -> x * Num.pow10 ndigits <= 1 # 2 -> Num.round x ndigits == 0.
Proof.
  intros H0 H1. unfold Num.round.
  rewrite round_half_even_small.
  - unfold Qdiv. ring.
  - apply Qmult_le_0_compat; [ exact H0 | apply Qlt_le_weak, pow10_pos ].
  - exact H1.
Qed.

End Precision.

(** X5.  A total time of at most half a unit of the last decimal place kept by
    the precision is stored as 0, and a series that holds such a record
    cannot be reduced: the division raises ZeroDivisionError. *)
Theorem short_total_raises_zero_division (h : Curl) (precision : Z)
        (before after : list TimingRecord) :
  0 <= TOTAL_TIME h ->
  TOTAL_TIME h * Num.pow10 precision <= 1 # 2 ->
  TotalTime (extract_timings h precision) == 0 /\
  y_axis (before ++ extract_timings h precision :: after) = Raise ZeroDivisionError.
Proof.
  intros H0 H1.
  assert (Hz : TotalTime (extract_timings h precision) == 0).
  { simpl. apply round_small; assumption. }
  split; [ exact Hz | ].
  apply y_axis_zero. apply Exists_app. right. left. exact Hz.
Qed.

(** X7.  On an accepted command line on which no argument names the
    option, in full or abbreviated, attempts and time_delay are 50 and
    precision is 3: the defaults of lines 36 to 38. *)
Theorem absent_integer_options_take_defaults (argv : list string) (args : Namespace) :
  Argparse.parse_args argv = Ok args ->
  (not_given Argparse.d_attempts argv -> attempts args = 50%Z) /\
  (not_given Argparse.d_time_delay argv -> time_delay args = 50%Z) /\
  (not_given Argparse.d_precision argv -> precision args = 3%Z).
Proof.
  intros Hparse. split; [ | split ]; intros Hnot.
  - pose proof (parse_args_not_given Argparse.d_attempts argv args Hparse Hnot) as E.
    simpl in E. inversion E. reflexivity.
  - pose proof (parse_args_not_given Argparse.d_time_delay argv args Hparse Hnot) as E.
    simpl in E. inversion E. reflexivity.
  - pose proof (parse_args_not_given Argparse.d_precision argv args Hparse Hnot) as E.
    simpl in E. inversion E. reflexivity.
Qed.

Section Requests.

Variable network : nat -> option string -> option string -> option Curl.
Variable args : Namespace.

Lemma loop_events_requests (vs : list TimingRecord) : forall i ws,
  List.length vs = List.length ws ->
  filter is_request (loop_events args i vs ws)
    = List.concat (repeat [ SendRequest (target args) (valid_post args);
                       SendRequest (target args) (invalid_post args) ]
                     (List.length vs)).
Proof.
  induction vs as [ | rv vs IH ]; intros i ws Hlen; [ reflexivity | ].
  destruct ws as [ | ri ws ]; [ discriminate | ].
  simpl. rewrite IH by (simpl in Hlen; lia). reflexivity.
Qed.

Lemma loop_events_progress (vs : list TimingRecord) : forall i ws,
  List.length vs = List.length ws ->
  filter is_progress (loop_events args i vs ws)
    = map (fun k => LogProcessed k (attempts args)) (seq i (List.length vs)).
Proof.
  induction vs as [ | rv vs IH ]; intros i ws Hlen; [ reflexivity | ].
  destruct ws as [ | ri ws ]; [ discriminate | ].
  simpl. rewrite IH by (simpl in Hlen; lia). reflexivity.
Qed.

(** Every request bumps the counter and nothing else does. *)
Lemma sent_counts_requests (n : nat) : forall i s,
  sent (final (for_range i n (trial network args) s))
    = (sent s
       + List.length (filter is_request
                        (events (for_range i n (trial network args) s))))%nat.
Proof.
  induction n as [ | n IH ]; intros i s.
  - unfold final, events, ret. simpl. lia.
  - rewrite for_range_S.
    destruct (reply network args valid (sent s)) as [ hv | ] eqn:Hv.
    2:{ rewrite (trial_valid_fails network args i s Hv).
        unfold final, events. simpl. lia. }
    destruct (reply network args invalid (S (sent s))) as [ hi | ] eqn:Hi.
    2:{ rewrite (trial_invalid_fails network args i s hv Hv Hi).
        unfold final, events. simpl. lia. }
    rewrite (trial_completes network args i s hv hi Hv Hi).
    match goal with
    | |- context [ for_range (S i) n (trial network args) ?s1 ] =>
        specialize (IH (S i) s1);
        destruct (for_range (S i) n (trial network args) s1) as [[r s2] t2]
    end.
    unfold final, events in *. simpl in *. lia.
Qed.

End Requests.

(** X8.  A sampling loop that completes has sent exactly two requests per
    trial, alternating the valid and the invalid payload, to the same
    URL. *)
Theorem completed_loop_sends_two_requests_per_trial network (args : Namespace) :
  outcome (sampling_loop network args initial) = Ok tt ->
  filter is_request (events (sampling_loop network args initial))
    = List.concat (repeat [ SendRequest (target args) (valid_post args);
                       SendRequest (target args) (invalid_post args) ]
                     (Z.to_nat (attempts args))) /\
  sent (final (sampling_loop network args initial))
    = (2 * Z.to_nat (attempts args))%nat.
Proof.
  intros Hok.
  destruct (loop_completed network args Hok) as (Lv & Lw & Hev & _).
  assert (E : filter is_request (events (sampling_loop network args initial))
              = List.concat (repeat [ SendRequest (target args) (valid_post args);
                                 SendRequest (target args) (invalid_post args) ]
                               (Z.to_nat (attempts args)))).
  { rewrite Hev, loop_events_requests by congruence. rewrite Lv. reflexivity. }
  split; [ exact E | ].
  unfold sampling_loop in *. rewrite sent_counts_requests, E. simpl.
  generalize (Z.to_nat (attempts args)). intros n.
  induction n as [ | n IH ]; simpl in *; lia.
Qed.

(** X9.  When the script ends with pycurl's exception, the last thing it did is
    the request that failed: the request is not retried, no further request
    is sent and nothing is logged or appended after it. *)
Theorem failed_request_is_the_last_event network (args : Namespace) :
  outcome (script network args initial) = Raise PycurlError ->
  exists earlier url data,
    events (script network args initial) = earlier ++ [ SendRequest url data ] /\
    network (List.length (filter is_request earlier)) url data = None /\
    sent (final (script network args initial))
      = S (List.length (filter is_request earlier)).
Proof.
  rewrite script_unfold.
  destruct (for_range_trial network args (Z.to_nat (attempts args)) 0 initial)
    as (vs & ws & tail & Hlen & _ & _ & Hev & Hend & _).
  pose proof (sent_counts_requests network args (Z.to_nat (attempts args)) 0 initial)
    as Hsent.
  fold (sampling_loop network args) in Hev, Hend, Hsent.
  destruct (sampling_loop network args initial) as [[r s1] t1].
  unfold outcome, final, events in *. simpl in *.
  destruct r as [ [] | e ].
  - intros Hraise. exfalso.
    destruct (reduce_outcome args s1) as [ [ rep Hred ] | [ Hred | Hred ] ];
      destruct (reduce_and_plot args s1) as [[r2 s2] t2];
      unfold outcome in *; simpl in *; congruence.
  - simpl. intros _. subst t1.
    inversion Hend as [ | Hm Hv | Hm Hv Hi ]; subst.
    + exists (LogPassedArguments args :: loop_events args 0 vs ws),
        (target args), (valid_post args).
      simpl. rewrite (loop_events_requests args vs 0 ws Hlen).
      rewrite filter_app, (loop_events_requests args vs 0 ws Hlen) in Hsent.
      assert (L : forall n, List.length
                   (List.concat (repeat [ SendRequest (target args) (valid_post args);
                                     SendRequest (target args) (invalid_post args) ] n))
                  = (2 * n)%nat).
      { induction n as [ | n IH ]; simpl in *; lia. }
      rewrite length_app, L in Hsent. rewrite L. simpl in Hsent.
      split; [ | split ].
      * simpl. repeat rewrite <- app_assoc. reflexivity.
      * exact Hv.
      * lia.
    + exists (LogPassedArguments args :: loop_events args 0 vs ws
                ++ [ SendRequest (target args) (valid_post args); CurlClose ]),
        (target args), (invalid_post args).
      simpl. rewrite filter_app, (loop_events_requests args vs 0 ws Hlen).
      rewrite filter_app, (loop_events_requests args vs 0 ws Hlen) in Hsent.
      assert (L : forall n, List.length
                   (List.concat (repeat [ SendRequest (target args) (valid_post args);
                                     SendRequest (target args) (invalid_post args) ] n))
                  = (2 * n)%nat).
      { induction n as [ | n IH ]; simpl in *; lia. }
      rewrite length_app, L in Hsent. rewrite length_app, L. simpl in *.
      split; [ | split ].
      * simpl. repeat rewrite <- app_assoc. reflexivity.
      * replace (2 * List.length vs + 1)%nat
          with (List.length vs + (List.length vs + 0) + 1)%nat by lia.
        exact Hi.
      * lia.
Qed.

(** X10.  The progress lines number the completed trials from 0: a loop that has
    completed m trials has logged the lines 0 / attempts, ...,
    m - 1 / attempts, in this order, so that no line ever shows
    attempts / attempts. *)
Theorem progress_lines_count_from_zero network (args : Namespace) :
  let run := sampling_loop network args initial in
  let completed := List.length (metrics_valid (final run)) in
  filter is_progress (events run)
    = map (fun k => LogProcessed k (attempts args)) (seq 0 completed) /\
  (completed <= Z.to_nat (attempts args))%nat /\
  (forall k n, In (LogProcessed k n) (events run) ->
     n = attempts args /\ (Z.of_nat k < attempts args)%Z).
Proof.
  intros run completed. subst run completed.
  destruct (for_range_trial network args (Z.to_nat (attempts args)) 0 initial)
    as (vs & ws & tail & Hlen & Hmv & _ & Hev & Hend & _).
  fold (sampling_loop network args) in Hmv, Hev, Hend.
  simpl in Hmv. rewrite Hmv, Hev.
  assert (Htail : filter is_progress tail = []).
  { inversion Hend; reflexivity. }
  assert (Hle : (List.length vs <= Z.to_nat (attempts args))%nat).
  { inversion Hend; lia. }
  assert (E : filter is_progress (loop_events args 0 vs ws ++ tail)
              = map (fun k => LogProcessed k (attempts args)) (seq 0 (List.length vs))).
  { rewrite filter_app, Htail, app_nil_r. apply loop_events_progress. exact Hlen. }
  split; [ exact E | ]. split; [ exact Hle | ].
  intros k n Hin.
  assert (Hin' : In (LogProcessed k n)
                    (filter is_progress (loop_events args 0 vs ws ++ tail))).
  { apply filter_In. split; [ exact Hin | reflexivity ]. }
  rewrite E in Hin'. apply in_map_iff in Hin'.
  destruct Hin' as (j & Hj & Hseq). inversion Hj; subst.
  apply in_seq in Hseq. split; [ reflexivity | lia ].
Qed.

Section Classification.

Variable network : nat -> option string -> option string -> option Curl.
Variable args : Namespace.

Lemma loop_outcome :
  (outcome (sampling_loop network args initial) = Ok tt /\
   all_answered network args 0 (Z.to_nat (attempts args))) \/
  (outcome (sampling_loop network args initial) = Raise PycurlError /\
   some_fails network args 0 (Z.to_nat (attempts args))).
Proof.
  destruct (for_range_trial network args (Z.to_nat (attempts args)) 0 initial)
    as (vs & ws & tail & Hlen & _ & _ & _ & Hend & Hrec).
  fold (sampling_loop network args) in Hend.
  inversion Hend as [ Hm Ho | Hm Hv Ho | Hm Hv Hi Ho ].
  - left. split; [ reflexivity | ].
    eapply completed_all_answered; eauto.
  - right. split; [ reflexivity | ].
    exists (List.length vs). split; [ exact Hm | left; exact Hv ].
  - right. split; [ reflexivity | ].
    exists (List.length vs). split; [ exact Hm | right; exact Hi ].
Qed.

End Classification.

(** X11.  How a run ends is decided in this order: with no attempt to make, by
    StatisticsError; else, if some request fails, by pycurl's exception;
    else, if some record has a total of zero, by ZeroDivisionError;
    otherwise the run completes with a report.  Nothing else is ever
    raised. *)
Theorem script_outcome_classified network (args : Namespace) :
  let loop := sampling_loop network args initial in
  let run := script network args initial in
  let zero_total := fun m => TotalTime m == 0 in
  ((attempts args <= 0)%Z /\ outcome run = Raise StatisticsError) \/
  ((1 <= attempts args)%Z /\
   some_fails network args 0 (Z.to_nat (attempts args)) /\
   outcome run = Raise PycurlError) \/
  ((1 <= attempts args)%Z /\
   all_answered network args 0 (Z.to_nat (attempts args)) /\
   (Exists zero_total (metrics_valid (final loop)) \/
    Exists zero_total (metrics_invalid (final loop))) /\
   outcome run = Raise ZeroDivisionError) \/
  ((1 <= attempts args)%Z /\
   all_answered network args 0 (Z.to_nat (attempts args)) /\
   Forall (fun m => ~ zero_total m) (metrics_valid (final loop)) /\
   Forall (fun m => ~ zero_total m) (metrics_invalid (final loop)) /\
   exists rep, outcome run = Ok rep).
Proof.
  intros loop run zero_total. subst loop run zero_total.
  destruct (Z_le_gt_dec (attempts args) 0) as [ Hle | Hgt ].
  { left. split; [ exact Hle | ].
    rewrite script_unfold. unfold sampling_loop.
    replace (Z.to_nat (attempts args)) with 0%nat by lia. reflexivity. }
  right.
  assert (Hpos : (1 <= attempts args)%Z) by lia.
  destruct (loop_outcome network args) as [ [ Hok Hall ] | [ Hraise Hfail ] ].
  2:{ left. split; [ exact Hpos | ]. split; [ exact Hfail | ].
      rewrite script_unfold.
      destruct (sampling_loop network args initial) as [[r s1] t1].
      unfold outcome in *. simpl in *. subst r. reflexivity. }
  right.
  destruct (loop_completed network args Hok) as (Lv & Lw & _ & _).
  rewrite script_unfold.
  destruct (sampling_loop network args initial) as [[r s1] t1].
  unfold outcome, final in *. simpl in *. subst r.
  destruct (zero_or_not (metrics_valid s1)) as [ Nv | Zv ].
  2:{ left. split; [ exact Hpos | ]. split; [ exact Hall | ].
      split; [ left; exact Zv | ].
      rewrite (reduce_valid_raises args s1 _ (y_axis_zero _ Zv)). reflexivity. }
  destruct (zero_or_not (metrics_invalid s1)) as [ Nw | Zw ].
  2:{ left. split; [ exact Hpos | ]. split; [ exact Hall | ].
      split; [ right; exact Zw | ].
      rewrite (reduce_invalid_raises args s1 _ _
                 (y_axis_nonzero _ Nv) (y_axis_zero _ Zw)).
      reflexivity. }
  right. split; [ exact Hpos | ]. split; [ exact Hall | ].
  split; [ exact Nv | ]. split; [ exact Nw | ].
  assert (Ev : map ratio (metrics_valid s1) <> []).
  { destruct (metrics_valid s1); [ simpl in Lv; lia | discriminate ]. }
  assert (Ew : map ratio (metrics_invalid s1) <> []).
  { destruct (metrics_invalid s1); [ simpl in Lw; lia | discriminate ]. }
  destruct (mean_nonempty _ Ev) as (a & Ma & _).
  destruct (mean_nonempty _ Ew) as (b & Mb & _).
  destruct (reduce_completes args s1 _ _ a b
              (y_axis_nonzero _ Nv) (y_axis_nonzero _ Nw) Ma Mb) as (lo & hi & Hred).
  rewrite Hred. eexists. reflexivity.
Qed.

(** X12.  On a completed run, the signal series are the ratios of the records
    sampled, the two means are their arithmetic means, and everything that
    is logged as a result or plotted comes after the last sampling event, in
    the order of the source: the two means, the title, the labels, the
    ticks, the valid series in blue, the invalid one in red, the axis
    window and the display. *)
Theorem completed_run_reports_after_sampling network (args : Namespace) (rep : report) :
  outcome (script network args initial) = Ok rep ->
  let s := final (script network args initial) in
  y_axis_valid rep = map ratio (metrics_valid s) /\
  y_axis_invalid rep = map ratio (metrics_invalid s) /\
  mean_valid rep == arithmetic_mean (y_axis_valid rep) /\
  mean_invalid rep == arithmetic_mean (y_axis_invalid rep) /\
  exists lo hi,
    Py.min (y_axis_valid rep) = Ok lo /\
    Py.max (y_axis_valid rep) = Ok hi /\
    events (script network args initial)
      = LogPassedArguments args
        :: loop_events args 0 (metrics_valid s) (metrics_invalid s)
        ++ report_events args rep lo hi.
Proof.
  intros Hok s. subst s.
  destruct (script_inv network args rep Hok) as (Hloop & Hfinal & lo & hi & Hred & Hev).
  destruct (reduce_inv _ _ _ _ _ Hred)
    as (_ & Yv & Yw & Mv & Mw & lo' & hi' & Hlo & Hhi & Et).
  destruct (loop_completed network args Hloop) as (_ & _ & Hle & _).
  rewrite Hfinal.
  apply y_axis_Ok in Yv. destruct Yv as [ Ev _ ].
  apply y_axis_Ok in Yw. destruct Yw as [ Ew _ ].
  destruct (mean_nonempty _ (mean_Ok_nonempty _ _ Mv)) as (a & Ma & Ea).
  destruct (mean_nonempty _ (mean_Ok_nonempty _ _ Mw)) as (b & Mb & Eb).
  rewrite Mv in Ma. inversion Ma; subst a.
  rewrite Mw in Mb. inversion Mb; subst b.
  split; [ exact Ev | ]. split; [ exact Ew | ].
  split; [ exact Ea | ]. split; [ exact Eb | ].
  exists lo', hi'. split; [ exact Hlo | ]. split; [ exact Hhi | ].
  rewrite Hev, Hle, Et. reflexivity.
Qed.

(** X13.  With a single attempt, the valid mean is the one valid signal, and
    the plot has a single point per series and an x axis that runs from 1
    to 1. *)
Theorem single_trial_run network (args : Namespace) (rep : report) :
  attempts args = 1%Z ->
  outcome (script network args initial) = Ok rep ->
  exists y,
    y_axis_valid rep = [ y ] /\
    mean_valid rep == y /\
    In (PltPlot [ 1%Z ] [ y ] "b") (events (script network args initial)) /\
    In (PltAxis 1 1 (y - y * (5 # 100)) (y + y * (5 # 100)))
       (events (script network args initial)).
Proof.
  intros Hone Hok.
  destruct (script_inv network args rep Hok) as (Hloop & _ & lo & hi & Hred & Hev).
  destruct (reduce_inv _ _ _ _ _ Hred)
    as (_ & Yv & _ & Mv & _ & lo' & hi' & Hlo & Hhi & Et).
  destruct (loop_completed network args Hloop) as (Lv & _ & _ & _).
  apply y_axis_Ok in Yv. destruct Yv as [ Ev _ ].
  assert (Hlen : List.length (y_axis_valid rep) = 1%nat).
  { rewrite Ev, length_map, Lv, Hone. reflexivity. }
  destruct (y_axis_valid rep) as [ | y [ | y' ys ] ] eqn:Ey; try discriminate.
  exists y. split; [ reflexivity | ].
  simpl in Hlo, Hhi, Mv. inversion Hlo; subst lo'. inversion Hhi; subst hi'.
  inversion Mv as [ Em ].
  split.
  - unfold Statistics.sum. simpl. field.
  - rewrite Hev, Et. unfold report_events. rewrite Ey, Hone.
    split; right; apply in_or_app; right; simpl; tauto.
Qed.

Lemma completed_run_plots_one_point_per_trial_witness :
  let args := example_args 5 50 3 in
  exists rep,
    outcome (script steady args initial) = Ok rep /\
    (1 <= attempts args)%Z /\
    Z.of_nat (List.length (y_axis_valid rep)) = attempts args /\
    Z.of_nat (List.length (y_axis_invalid rep)) = attempts args /\
    Z.of_nat (List.length (Py.range 1 (attempts args + 1))) = attempts args /\
    (forall i, (Z.of_nat i < attempts args)%Z ->
       nth_error (Py.range 1 (attempts args + 1)) i = Some (Z.of_nat i + 1)%Z) /\
    In (PltPlot (Py.range 1 (attempts args + 1)) (y_axis_valid rep) "b")
       (events (script steady args initial)) /\
    In (PltPlot (Py.range 1 (attempts args + 1)) (y_axis_invalid rep) "r")
       (events (script steady args initial)).
Proof.
  eexists. split; [ vm_compute; reflexivity | ].
  apply (completed_run_plots_one_point_per_trial steady (example_args 5 50 3)).
  vm_compute. reflexivity.
Defined.

Lemma axis_window_frames_valid_series_witness :
  let args := example_args 5 50 3 in
  exists rep,
    outcome (script steady args initial) = Ok rep /\
    exists ymin ymax,
      In (PltAxis 1 (attempts args) ymin ymax) (events (script steady args initial)) /\
      Forall (fun y => ymin <= y /\ y <= ymax) (y_axis_valid rep).
Proof.
  eexists. split; [ vm_compute; reflexivity | ].
  apply (axis_window_frames_valid_series steady (example_args 5 50 3)).
  - vm_compute. reflexivity.
  - repeat constructor; unfold Qle; simpl; lia.
Defined.

Lemma axis_window_ignores_invalid_series_witness :
  let args := example_args 5 50 3 in
  exists ymin ymax,
    In (PltAxis 1 (attempts args) ymin ymax) (events (script lagging args initial)) /\
    ymax < Num.round (80 # 1) 3 / Num.round (100 # 1) 3.
Proof.
  eapply (axis_window_ignores_invalid_series lagging (example_args 5 50 3)).
  - vm_compute. reflexivity.
  - left. reflexivity.
  - intros v Hv. vm_compute in Hv.
    repeat (destruct Hv as [ Hv | Hv ]; [ subst v; vm_compute; reflexivity | ]).
    contradiction.
Defined.

Lemma signals_and_means_between_0_and_1_witness :
  let args := example_args 5 50 3 in
  exists rep,
    outcome (script steady args initial) = Ok rep /\
    Forall (fun y => 0 <= y /\ y <= 1) (y_axis_valid rep) /\
    Forall (fun y => 0 <= y /\ y <= 1) (y_axis_invalid rep) /\
    (0 <= mean_valid rep /\ mean_valid rep <= 1) /\
    (0 <= mean_invalid rep /\ mean_invalid rep <= 1).
Proof.
  eexists. split; [ vm_compute; reflexivity | ].
  apply (signals_and_means_between_0_and_1 steady (example_args 5 50 3)).
  - vm_compute. reflexivity.
  - intros c k h. unfold reply, steady.
    destruct (Nat.even k); intros E; inversion E; simpl;
      split; unfold Qle; simpl; lia.
Defined.

Lemma short_total_raises_zero_division_witness :
  let h := mkCurl 0 (1 # 10) (1 # 10) (2 # 10) (3 # 10) in
  TotalTime (extract_timings h 0) == 0 /\
  y_axis ([] ++ extract_timings h 0 :: []) = Raise ZeroDivisionError.
Proof.
  apply (short_total_raises_zero_division
           (mkCurl 0 (1 # 10) (1 # 10) (2 # 10) (3 # 10)) 0 [] []);
    unfold Qle; simpl; lia.
Defined.

Lemma absent_integer_options_take_defaults_witness :
  let argv := [ "--targ"%string; "http://localhost/login"%string;
                "--precision=4"%string ] in
  let args := mkNamespace (Some "http://localhost/login"%string) None None 50 50 4 in
  (not_given Argparse.d_attempts argv -> attempts args = 50%Z) /\
  (not_given Argparse.d_time_delay argv -> time_delay args = 50%Z) /\
  (not_given Argparse.d_precision argv -> precision args = 3%Z).
Proof.
  apply (absent_integer_options_take_defaults
           [ "--targ"%string; "http://localhost/login"%string;
             "--precision=4"%string ]
           (mkNamespace (Some "http://localhost/login"%string) None None 50 50 4)).
  reflexivity.
Defined.

Lemma completed_loop_sends_two_requests_per_trial_witness :
  let args := example_args 5 50 3 in
  filter is_request (events (sampling_loop steady args initial))
    = List.concat (repeat [ SendRequest (target args) (valid_post args);
                            SendRequest (target args) (invalid_post args) ]
                          (Z.to_nat (attempts args))) /\
  sent (final (sampling_loop steady args initial))
    = (2 * Z.to_nat (attempts args))%nat.
Proof.
  apply (completed_loop_sends_two_requests_per_trial steady (example_args 5 50 3)).
  reflexivity.
Defined.

Lemma failed_request_is_the_last_event_witness :
  let args := example_args 10 50 3 in
  exists earlier url data,
    events (script refused_at_third args initial) = earlier ++ [ SendRequest url data ] /\
    refused_at_third (List.length (filter is_request earlier)) url data = None /\
    sent (final (script refused_at_third args initial))
      = S (List.length (filter is_request earlier)).
Proof.
  apply (failed_request_is_the_last_event refused_at_third (example_args 10 50 3)).
  reflexivity.
Defined.

Lemma completed_run_reports_after_sampling_witness :
  let args := example_args 5 50 3 in
  exists rep,
    outcome (script steady args initial) = Ok rep /\
    let s := final (script steady args initial) in
    y_axis_valid rep = map ratio (metrics_valid s) /\
    y_axis_invalid rep = map ratio (metrics_invalid s) /\
    mean_valid rep == arithmetic_mean (y_axis_valid rep) /\
    mean_invalid rep == arithmetic_mean (y_axis_invalid rep) /\
    exists lo hi,
      Py.min (y_axis_valid rep) = Ok lo /\
      Py.max (y_axis_valid rep) = Ok hi /\
      events (script steady args initial)
        = LogPassedArguments args
          :: loop_events args 0 (metrics_valid s) (metrics_invalid s)
          ++ report_events args rep lo hi.
Proof.
  eexists. split; [ vm_compute; reflexivity | ].
  apply (completed_run_reports_after_sampling steady (example_args 5 50 3)).
  vm_compute. reflexivity.
Defined.

Lemma single_trial_run_witness :
  let args := example_args 1 50 3 in
  exists rep,
    outcome (script steady args initial) = Ok rep /\
    exists y,
      y_axis_valid rep = [ y ] /\
      mean_valid rep == y /\
      In (PltPlot [ 1%Z ] [ y ] "b") (events (script steady args initial)) /\
      In (PltAxis 1 1 (y - y * (5 # 100)) (y + y * (5 # 100)))
         (events (script steady args initial)).
Proof.
  eexists. split; [ vm_compute; reflexivity | ].
  apply (single_trial_run steady (example_args 1 50 3)).
  - reflexivity.
  - vm_compute. reflexivity.
Defined.
